(** * Search-and-rank pipeline of [src/db.py] (MongoCaseRepository)

    Shallow embedding of the document normaliser, the result merger, the
    semantic reranker and the [search_cases] orchestrator.  Documents are
    Python dictionaries with insertion order, modelled as association
    lists; BSON values are modelled by [value].  The MongoDB collection
    and the sentence-transformer model are external capabilities, modelled
    as Section variables.  Embedding scores (numpy floats) are modelled as
    exact rationals. *)

From Stdlib Require Import List String Ascii ZArith QArith Bool Lia.
From Stdlib Require Import Permutation Sorted.
Import ListNotations.
Open Scope string_scope.
Set Warnings "-register-all".

(** ** Data model *)

(** BSON / Python values that can occur in a stored case record. *)
Inductive value : Type :=
| VNone
| VBool (b : bool)
| VInt (z : Z)
| VStr (s : string)
| VOid (hex : string)                  (* bson.ObjectId *)
| VList (l : list value)
| VDict (d : list (string * value)).

(** A document is a Python [dict]: keys in insertion order. *)
Definition Document := list (string * value).

(** [d.get(k)] without default: [None] when the key is absent. *)
Fixpoint dict_lookup (k : string) (d : list (string * value)) : option value :=
  match d with
  | [] => None
  | (k', v) :: d' => if String.eqb k k' then Some v else dict_lookup k d'
  end.

(** [d.get(k)] with Python's default [None]. *)
Definition dict_get (k : string) (d : Document) : value :=
  match dict_lookup k d with Some v => v | None => VNone end.

(** [d[k] = v]: overwrite in place when present, append otherwise. *)
Fixpoint dict_set_aux (k : string) (v : value) (d : Document) : option Document :=
  match d with
  | [] => None
  | (k', w) :: d' =>
      if String.eqb k k' then Some ((k', v) :: d')
      else option_map (cons (k', w)) (dict_set_aux k v d')
  end.

Definition dict_set (k : string) (v : value) (d : Document) : Document :=
  match dict_set_aux k v d with Some d' => d' | None => (d ++ [(k, v)])%list end.

(** [d.pop(k, None)] with the result discarded. *)
Definition dict_pop (k : string) (d : Document) : Document :=
  filter (fun kv => negb (String.eqb k (fst kv))) d.

(** *** [str()] and [repr()] *)

Definition digit_char (n : Z) : ascii := ascii_of_nat (48 + Z.to_nat n).

Fixpoint digits_aux (fuel : nat) (n : Z) (acc : string) : string :=
  match fuel with
  | O => acc
  | S f =>
      let acc' := String (digit_char (n mod 10)%Z) acc in
      if (n <? 10)%Z then acc' else digits_aux f (n / 10)%Z acc'
  end.

(** Decimal rendering of a Python [int]. *)
Definition str_of_Z (z : Z) : string :=
  let fuel := S (Z.to_nat (Z.log2 (Z.abs z))) in
  if (z <? 0)%Z then String "-" (digits_aux fuel (- z)%Z "")
  else digits_aux fuel z "".

Fixpoint join (sep : string) (l : list string) : string :=
  match l with
  | [] => ""
  | [x] => x
  | x :: l' => x ++ sep ++ join sep l'
  end.

(** The double quote character. *)
Definition dquote : ascii := ascii_of_nat 34.

Definition hex_digit (n : nat) : ascii :=
  nth n (list_ascii_of_string "0123456789abcdef") "0"%char.

(** One character of a string literal written by [repr()] with quote [q]:
    backslash, the quote in use and the whitespace controls get their
    escapes, other control characters [\xNN]; every other character is
    kept (bytes of non-ASCII characters are assumed printable). *)
Definition repr_char (q c : ascii) : string :=
  let n := nat_of_ascii c in
  if Ascii.eqb c "\"%char then "\\"
  else if Ascii.eqb c q then String "\"%char (String q "")
  else if Nat.eqb n 9 then "\t"
  else if Nat.eqb n 10 then "\n"
  else if Nat.eqb n 13 then "\r"
  else if (n <? 32)%nat || Nat.eqb n 127 then
    String "\"%char (String "x"%char (String (hex_digit (n / 16)) (String (hex_digit (n mod 16)) "")))
  else String c "".

(** [repr()] of a [str]: single quotes, unless the string holds a single
    quote and no double quote. *)
Definition repr_str (s : string) : string :=
  let cs := list_ascii_of_string s in
  let q := if existsb (Ascii.eqb "'"%char) cs && negb (existsb (Ascii.eqb dquote) cs)
           then dquote else "'"%char in
  String q (concat "" (map (repr_char q) cs) ++ String q "").

(** [repr()]. *)
Fixpoint py_repr (v : value) : string :=
  match v with
  | VNone => "None"
  | VBool true => "True"
  | VBool false => "False"
  | VInt z => str_of_Z z
  | VStr s => repr_str s
  | VOid h => "ObjectId('" ++ h ++ "')"
  | VList l => "[" ++ join ", " (map py_repr l) ++ "]"
  | VDict d =>
      "{" ++ join ", " (map (fun kv => repr_str (fst kv) ++ ": " ++ py_repr (snd kv)) d)
      ++ "}"
  end.

(** [str()]: differs from [repr()] on strings and ObjectIds. *)
Definition py_str (v : value) : string :=
  match v with
  | VStr s => s
  | VOid h => h
  | _ => py_repr v
  end.

(** Python truthiness. *)
Definition truthy (v : value) : bool :=
  match v with
  | VNone => false
  | VBool b => b
  | VInt z => negb (Z.eqb z 0%Z)
  | VStr s => negb (String.eqb s "")
  | VOid _ => true
  | VList l => negb (List.length l =? 0)%nat
  | VDict d => negb (List.length d =? 0)%nat
  end.

(** *** Python [==] *)

(** [True == 1] and [False == 0] hold in Python; dictionaries compare as
    mappings, irrespective of insertion order. *)
Fixpoint py_eqb (a b : value) : bool :=
  match a, b with
  | VNone, VNone => true
  | VBool x, VBool y => Bool.eqb x y
  | VBool x, VInt z => Z.eqb z (if x then 1 else 0)%Z
  | VInt z, VBool x => Z.eqb z (if x then 1 else 0)%Z
  | VInt x, VInt y => Z.eqb x y
  | VStr x, VStr y => String.eqb x y
  | VOid x, VOid y => String.eqb x y
  | VList xs, VList ys =>
      (fix go (xs ys : list value) : bool :=
         match xs, ys with
         | [], [] => true
         | x :: xs', y :: ys' => py_eqb x y && go xs' ys'
         | _, _ => false
         end) xs ys
  | VDict xs, VDict ys =>
      (fix go (xs : list (string * value)) : bool :=
         match xs with
         | [] => true
         | (k, v) :: xs' =>
             match dict_lookup k ys with
             | Some w => py_eqb v w && go xs'
             | None => false
             end
         end) xs
      && forallb (fun kv => match dict_lookup (fst kv) xs with
                            | Some _ => true | None => false end) ys
  | _, _ => false
  end.

Definition doc_eqb (a b : Document) : bool := py_eqb (VDict a) (VDict b).

(** ** [_normalise_document] *)

Definition normalise_document (document : option Document) : Document :=
  match document with
  | None => []
  | Some d =>
      let normalised := d in
      let identifier := dict_get "_id" normalised in
      let normalised :=
        match identifier with
        | VNone => normalised
        | _ => dict_set "_id" (VStr (py_str identifier)) normalised
        end in
      dict_pop "score" normalised
  end.

(** ** [_merge_documents] *)

(** [isinstance(Document.get("_id"), str)]. *)
Definition str_id (d : Document) : option string :=
  match dict_get "_id" d with VStr s => Some s | _ => None end.

Fixpoint str_ids (l : list Document) : list string :=
  match l with
  | [] => []
  | d :: l' => match str_id d with
               | Some s => s :: str_ids l'
               | None => str_ids l'
               end
  end.

Definition mem_str (s : string) (seen : list string) : bool :=
  existsb (String.eqb s) seen.

(** [document in merged]. *)
Definition mem_doc (d : Document) (merged : list Document) : bool :=
  existsb (fun e => doc_eqb e d) merged.

(** The [for document in secondary] loop, with [seen] and [merged]. *)
Fixpoint merge_loop (seen : list string) (merged : list Document)
    (secondary : list Document) : list Document :=
  match secondary with
  | [] => merged
  | document :: rest =>
      match str_id document with
      | Some identifier =>
          if mem_str identifier seen then merge_loop seen merged rest
          else merge_loop (identifier :: seen) (merged ++ [document])%list rest
      | None =>
          if mem_doc document merged then merge_loop seen merged rest
          else merge_loop seen (merged ++ [document])%list rest
      end
  end.

Definition merge_documents (primary secondary : list Document) : list Document :=
  match secondary with
  | [] => primary
  | _ => merge_loop (str_ids primary) primary secondary
  end.

(** ** Effects: exceptions and an event trace *)

(** The [pymongo.errors] classes the code distinguishes.  Server-reported
    command failures (unknown index, unauthorised, ...) are
    [OperationFailure] with the server's error code. *)
Inductive mongo_error : Type :=
| OperationFailure (code : Z)
| ConnectionFailure
| ServerSelectionTimeoutError
| NetworkTimeout
| OtherPyMongoError.

(** Exceptions that can leave a stage. *)
Inductive exn : Type :=
| RepositoryError
| MongoError (e : mongo_error)     (* a [PyMongoError] not wrapped by the code *)
| ModelError                       (* anything raised by the embedding model *)
| AttributeError
| ValueError.                      (* numpy shape mismatch in [@] *)

(** Observable interactions with the collaborators. *)
Inductive event : Type :=
| EvConnect          (* [MongoClient(...)] and [ping] *)
| EvTextFind         (* [collection.find({"$text": ...})] *)
| EvRegexFind        (* [collection.find({"$or": [... $regex ...]})] *)
| EvLoadModel        (* [_get_embedding_model()] *)
| EvEncode.          (* [model.encode(...)] *)

Inductive outcome (A : Type) : Type :=
| Ok (a : A)
| Raise (e : exn).
Arguments Ok {A} a.
Arguments Raise {A} e.

Definition M (A : Type) : Type := list event -> list event * outcome A.

Definition ret {A} (a : A) : M A := fun t => (t, Ok a).
Definition raise {A} (e : exn) : M A := fun t => (t, Raise e).
Definition emit (ev : event) : M unit := fun t => ((t ++ [ev])%list, Ok tt).
Definition bind {A B} (m : M A) (k : A -> M B) : M B :=
  fun t => match m t with
           | (t', Ok a) => k a t'
           | (t', Raise e) => (t', Raise e)
           end.
(** [try: m except Exception: h]. *)
Definition catch {A} (m : M A) (h : exn -> M A) : M A :=
  fun t => match m t with
           | (t', Ok a) => (t', Ok a)
           | (t', Raise e) => h e t'
           end.
Definition of_option {A} (e : exn) (o : option A) : M A :=
  match o with Some a => ret a | None => raise e end.

Notation "x <- m ;; k" := (bind m (fun x => k))
  (at level 61, m at next level, right associativity).
Notation "m ;;; k" := (bind m (fun _ => k)) (at level 61, right associativity).

(** Result of a [find] on the collection: the documents the cursor yields,
    or the error raised while running or iterating it. *)
Inductive find_result : Type :=
| FindOk (cursor : list Document)
| FindErr (e : mongo_error).

(** ** [_document_to_text] *)

Definition str_parts (l : list value) : list string := map py_str (filter truthy l).

(** [None] when [document.get("search_metadata", {}).get("summary")] raises
    [AttributeError] (a [search_metadata] that is not a dict). *)
Definition document_to_text (document : Document) : option string :=
  let head :=
    flat_map (fun key => let v := dict_get key document in
                         if truthy v then [py_str v] else [])
             ["case_title"; "court"; "citation"] in
  let bench := match dict_get "bench" document with
               | VList l => str_parts l | _ => [] end in
  let issues := match dict_get "issues" document with
                | VList l => str_parts l | _ => [] end in
  let summary :=
    match dict_lookup "search_metadata" document with
    | None => Some []
    | Some (VDict m) => let s := dict_get "summary" m in
                        Some (if truthy s then [py_str s] else [])
    | Some _ => None
    end in
  let reasoning := match dict_get "reasoning" document with
                   | VDict r => str_parts (map snd r) | _ => [] end in
  let outcome :=
    match dict_get "outcome" document with
    | VDict o =>
        (let d := dict_get "decision" o in if truthy d then [py_str d] else [])
        ++ match dict_get "directions" o with
           | VList l => str_parts l | _ => [] end
    | _ => []
    end%list in
  match summary with
  | None => None
  | Some s => Some (join " " (head ++ bench ++ issues ++ s ++ reasoning ++ outcome)%list)
  end.

(** ** Scores and the stable descending sort *)

Fixpoint traverse_option {A B} (f : A -> option B) (l : list A) : option (list B) :=
  match l with
  | [] => Some []
  | x :: l' => match f x, traverse_option f l' with
               | Some y, Some ys => Some (y :: ys)
               | _, _ => None
               end
  end.

Definition dot (u v : list Q) : Q :=
  fold_right Qplus 0 (map (fun p => fst p * snd p) (combine u v)).

(** [document_vectors @ query_vector]: [None] on a shape mismatch. *)
Definition matvec (rows : list (list Q)) (v : list Q) : option (list Q) :=
  if forallb (fun r => Nat.eqb (List.length r) (List.length v)) rows
  then Some (map (fun r => dot r v) rows) else None.

(** [sorted(..., key=lambda item: item[0], reverse=True)]: Python's sort
    is stable also with [reverse=True]; any stable sort computes the same
    list, written here as an insertion sort. *)
Fixpoint insert_desc (x : Q * Document) (l : list (Q * Document)) : list (Q * Document) :=
  match l with
  | [] => [x]
  | y :: l' => if Qlt_le_dec (fst x) (fst y) then y :: insert_desc x l' else x :: l
  end.

Fixpoint sort_desc (l : list (Q * Document)) : list (Q * Document) :=
  match l with
  | [] => []
  | x :: l' => insert_desc x (sort_desc l')
  end.

(** ** The repository *)

(** The [MongoCaseRepository] fields the search reads: [limit] and whether
    [_collection] is already set.  [connected = false] stands for a new or
    closed object, with [_client] and [_collection] both [None]; the state
    a failed [ping] leaves ([_client] set, [_collection] [None]) is
    covered by [search_cases_st] below, which models [_connect]'s early
    return. *)
Record repository : Type := {
  limit : Z;
  connected : bool
}.

(** [reranked[: self.limit]], Python slice semantics. *)
Definition py_slice_upto {A} (l : list A) (k : Z) : list A :=
  if (0 <=? k)%Z then firstn (Z.to_nat k) l
  else firstn (List.length l - Z.to_nat (- k)) l.

Section Pipeline.

(** The embedding model: whether [_get_embedding_model()] succeeds and
    [model.encode(text, normalize_embeddings=True)] ([None]: it raises).
    A batched [encode] over a list yields one vector per text. *)
Variable model_loads : bool.
Variable encode : string -> option (list Q).

(** The MongoDB collection: the outcome of [_connect] and of the two
    [find] calls, as functions of the query and the limit. *)
Variable connect_result : option mongo_error.
Variable text_find : string -> Z -> find_result.
Variable regex_find : string -> Z -> find_result.

(** The body of the [try] block of [_semantic_rerank]. *)
Definition embed_block (query : string) (documents : list Document)
    : M (list Q * list (list Q)) :=
  emit EvLoadModel ;;;
  (if model_loads then ret tt else raise ModelError) ;;;
  doc_texts <- of_option AttributeError (traverse_option document_to_text documents) ;;
  emit EvEncode ;;;
  query_vector <- of_option ModelError (encode query) ;;
  emit EvEncode ;;;
  document_vectors <- of_option ModelError (traverse_option encode doc_texts) ;;
  ret (query_vector, document_vectors).

Definition semantic_rerank (query : string) (documents : list Document)
    : M (list Document) :=
  if (List.length documents <=? 1)%nat then ret documents else
  r <- catch (v <- embed_block query documents ;; ret (Some v))
             (fun _ => ret None) ;;
  match r with
  | None => ret documents
  | Some (query_vector, document_vectors) =>
      scores <- of_option ValueError (matvec document_vectors query_vector) ;;
      let ranked := sort_desc (combine scores documents) in
      ret (map snd ranked)
  end.

Definition collection_handle (repo : repository) : M unit :=
  if connected repo then ret tt else
  emit EvConnect ;;;
  match connect_result with
  | None => ret tt
  | Some _ => raise RepositoryError
  end.

Definition normalise_cursor (cursor : list Document) : list Document :=
  map (fun d => normalise_document (Some d)) cursor.

Definition fallback_search (repo : repository) (query : string) : M (list Document) :=
  emit EvRegexFind ;;;
  match regex_find query (limit repo) with
  | FindOk cursor => ret (normalise_cursor cursor)
  | FindErr e => raise (MongoError e)
  end.

(** The primary query and its two [except] clauses: the documents and
    [run_fallback]. *)
Definition primary_search (repo : repository) (query : string)
    : M (list Document * bool) :=
  emit EvTextFind ;;;
  match text_find query (limit repo) with
  | FindOk cursor => ret (normalise_cursor cursor, false)
  | FindErr (OperationFailure _) => ret ([], true)
  | FindErr _ => raise RepositoryError
  end.

Definition search_cases (repo : repository) (query : string) : M (list Document) :=
  if String.eqb query "" then ret [] else
  collection_handle repo ;;;
  p <- primary_search repo query ;;
  let (documents, run_fallback) := p in
  documents <-
    (if run_fallback || (Z.of_nat (List.length documents) <? limit repo)%Z
     then fallback_documents <- fallback_search repo query ;;
          ret (merge_documents documents fallback_documents)
     else ret documents) ;;
  reranked <- semantic_rerank query documents ;;
  ret (py_slice_upto reranked (limit repo)).

End Pipeline.

(** Whether the [try] block of [_semantic_rerank] completes, and the
    query and document vectors it then holds. *)
Definition embedding_outcome (model_loads : bool) (encode : string -> option (list Q))
    (query : string) (documents : list Document) : option (list Q * list (list Q)) :=
  if model_loads then
    match traverse_option document_to_text documents with
    | None => None
    | Some doc_texts =>
        match encode query, traverse_option encode doc_texts with
        | Some query_vector, Some document_vectors => Some (query_vector, document_vectors)
        | _, _ => None
        end
    end
  else None.

(** ** Connection lifecycle: [_connect], [collection_handle], [close] *)

(** The two attributes of a [MongoCaseRepository] object that the
    connection code reads and writes: whether [_client] and [_collection]
    are set (not [None]). *)
Record conn_state : Type := {
  client_set : bool;
  collection_set : bool
}.

(** A new repository object: both attributes are [None]. *)
Definition conn_fresh : conn_state := {| client_set := false; collection_set := false |}.

(** How a connection attempt goes: [MongoClient(...)] raises a
    [PyMongoError] (e.g. an invalid URI); the client is built but the
    [ping] command (or the database/collection lookup) raises one; or
    everything succeeds. *)
Inductive connect_outcome : Type :=
| ClientFails (e : mongo_error)
| PingFails (e : mongo_error)
| PingOk.

(** [_connect]: nothing when [_client] is set.  Otherwise [_client] is
    assigned before the [ping], so after a failed [ping] it stays set,
    while [_collection] keeps its value; every [PyMongoError] becomes a
    [RepositoryError]. *)
Definition connect_st (o : connect_outcome) (s : conn_state) (t : list event)
    : conn_state * list event * outcome unit :=
  if client_set s then (s, t, Ok tt) else
  let t := (t ++ [EvConnect])%list in
  match o with
  | ClientFails _ => (s, t, Raise RepositoryError)
  | PingFails _ =>
      ({| client_set := true; collection_set := collection_set s |}, t, Raise RepositoryError)
  | PingOk => ({| client_set := true; collection_set := true |}, t, Ok tt)
  end.

(** The [collection_handle] property: [Ok true] when it returns a
    collection, [Ok false] when it returns [None]. *)
Definition collection_handle_st (o : connect_outcome) (s : conn_state) (t : list event)
    : conn_state * list event * outcome bool :=
  if collection_set s then (s, t, Ok true) else
  match connect_st o s t with
  | (s', t', Ok _) => (s', t', Ok (collection_set s'))
  | (s', t', Raise e) => (s', t', Raise e)
  end.

(** [close]. *)
Definition close_st (s : conn_state) : conn_state :=
  if client_set s then conn_fresh else s.

(** The states [_connect], [collection_handle] and [close] produce: a
    collection is only ever held together with a client. *)
Definition conn_ok (s : conn_state) : Prop :=
  collection_set s = true -> client_set s = true.

(** The [connect_result] of the single-call model [search_cases] that a
    connection attempt corresponds to. *)
Definition connect_result_of (o : connect_outcome) : option mongo_error :=
  match o with
  | ClientFails e | PingFails e => Some e
  | PingOk => None
  end.

(** [search_cases] on a repository object in connection state [s], with
    the outcome [o] of a connection attempt made during the call.  On a
    [None] handle, [collection.find(...)] raises [AttributeError], which
    neither [except] clause catches.  With a collection, the rest of the
    method is [search_cases] on a connected repository. *)
Definition search_cases_st (model_loads : bool) (encode : string -> option (list Q))
    (text_find regex_find : string -> Z -> find_result) (lim : Z)
    (o : connect_outcome) (s : conn_state) (query : string) (t : list event)
    : conn_state * (list event * outcome (list Document)) :=
  if String.eqb query "" then (s, (t, Ok [])) else
  match collection_handle_st o s t with
  | (s', t', Raise e) => (s', (t', Raise e))
  | (s', t', Ok false) => (s', (t', Raise AttributeError))
  | (s', t', Ok true) =>
      (s', search_cases model_loads encode None text_find regex_find
             {| limit := lim; connected := true |} query t')
  end.

(** ** [src/sample_data.py] *)

Definition SAMPLE_CASES : list Document := [
  [
    ("_id", VStr "68c93ace241e4ea8580068af");
    ("court", VStr "SUPREME COURT OF INDIA");
    ("FileID", VInt 2368453);
    ("case_title", VStr "In Re: Contagion of Covid-19 Virus in Prisons vs Director General (Prisons)");
    ("citation", VStr "2023 0 CJ(SC) 242");
    ("judgment_date", VStr "2023-03-24");
    ("bench", VList [
      VStr "M.R. Shah";
      VStr "C.T. Ravikumar"]);
    ("parties", VDict [
      ("appellant", VStr "In Re: Contagion of Covid-19 Virus in Prisons");
      ("respondent", VStr "Director General (Prisons)")]);
    ("case_type", VStr "I A");
    ("case_number", VStr "179931 of 2022 IN SUO MOTO WRIT PETITION (C) NO 01 of 2020");
    ("procedural_history", VList [
      VDict [
        ("court", VStr "District Munsif Court");
        ("decision", VStr "Dismissed the Election Petition.")];
      VDict [
        ("court", VStr "Additional District Judge");
        ("decision", VStr "Allowed the appeal and declared the election void.")];
      VDict [
        ("court", VStr "High Court of Kerala");
        ("decision", VStr "Dismissed the revision and review petitions, confirming the order of the Additional District Judge.")];
      VDict [
        ("court", VStr "Supreme Court of India");
        ("decision", VStr "Allowed the appeals, setting aside the lower court orders and dismissing the Election Petition.")]]);
    ("issues", VList [
      VStr "Whether the non-disclosure of a past conviction for a minor, regulatory offence under the Kerala Police Act in a nomination form constitutes a 'corrupt practice' of 'undue influence' under the Kerala Panchayat Raj Act, 1994?";
      VStr "Does such a non-disclosure amount to furnishing 'fake' details under Section 102(1)(ca) of the Kerala Panchayat Raj Act, thereby rendering the election void?";
      VStr "Whether the legislative intent behind mandatory disclosure of criminal antecedents is limited to serious or heinous offences, or if it extends to minor offences arising from political protests?"]);
    ("reasoning", VDict [
      ("rejection_of_high_court_methodology", VStr "The Supreme Court rejected the mechanical application of the disclosure rules by the High Court and District Court. It held that courts must look beyond the literal text to the legislative purpose, which is to prevent the criminalization of politics by targeting serious, not minor, offences.");
      ("application_of_precedent", VStr "The Court distinguished the case from Krishnamoorthy vs. Sivakumar, noting that the Kerala Act had a specific provision (Sec 102(1)(ca)) making the circuitous interpretation of 'undue influence' unnecessary. It aligned with the principles of Association for Democratic Reforms and PUCL, emphasizing that the voter's right to know is focused on antecedents involving serious crimes, corruption, or moral turpitude.");
      ("duty_of_the_court", VStr "The Court underscored its duty to adopt a purposive interpretation of election laws to avoid absurd outcomes. It held that voiding an election for non-disclosure of a minor offence related to a political protest would defeat the true object of the disclosure mandate, which is to ensure purity in public life by flagging candidates with serious criminal backgrounds.");
      ("evidence_based_determination", VStr "The Court's decision was based on a careful examination of the nature of the offence for which the appellant was convicted. It was determined to be a minor, regulatory offence under the Kerala Police Act for disobeying a police officer's direction during a political dharna, not a substantive offence under the Indian Penal Code or other laws related to corruption or heinous crimes.")]);
    ("outcome", VDict [
      ("decision", VStr "The appeals were allowed, and the election of the appellant was upheld.");
      ("directions", VList [
        VStr "Set aside the impugned orders of the High Court of Kerala and the Additional District Judge.";
        VStr "Dismiss the Election Petition filed by the respondent."])]);
    ("search_metadata", VDict [
      ("summary", VStr "The Supreme Court allowed the appeal of an elected Panchayat councilor whose election was declared void by lower courts for failing to disclose a past conviction. The conviction was for a minor offence under the Kerala Police Act, resulting from a political protest. The Court held that while the non-disclosure technically qualified as furnishing 'fake' information under Section 102(1)(ca) of the Kerala Panchayat Raj Act, 1994, the legislative intent behind such disclosure laws is to decriminalize politics by informing voters about serious or heinous criminal antecedents, not minor regulatory offences. Drawing a distinction between substantive crimes and minor offences arising from political activity, the Court adopted a purposive interpretation to conclude that voiding the election on this ground would be contrary to the object of the law. The lower court orders were set aside, and the election was upheld.");
      ("headnote", VStr "The Supreme Court held that the mandatory disclosure of criminal antecedents by candidates in election nomination forms must be interpreted purposively. The core objective is to inform voters about involvement in serious or heinous offences relating to corruption or moral turpitude to prevent the criminalization of politics. A distinction must be drawn between such substantive offences and minor, regulatory offences arising from political activities like protests. The non-disclosure of a conviction for a minor, regulatory offence (e.g., under a Police Act for disobeying an order during a dharna) does not vitiate an election under Section 102(1)(ca) of the Kerala Panchayat Raj Act, 1994, as it falls outside the intended scope of the disclosure mandate.");
      ("keywords", VList [
        VStr "Election Law";
        VStr "Disclosure of Criminal Antecedents";
        VStr "Kerala Panchayat Raj Act 1994";
        VStr "Corrupt Practice";
        VStr "Fake Information";
        VStr "Section 102(1)(ca)";
        VStr "Section 52(1A)";
        VStr "Purposive Interpretation";
        VStr "Voter's Right to Know";
        VStr "Decriminalization of Politics";
        VStr "Regulatory Offence";
        VStr "Substantive Offence";
        VStr "Political Protest";
        VStr "Nomination Form"]);
      ("legal_concepts", VList [
        VStr "Purity of Elections";
        VStr "Voter's Right to Information";
        VStr "Purposive Statutory Interpretation";
        VStr "Corrupt Practice in Election Law";
        VStr "Doctrine of Ultra Vires";
        VStr "Undue Influence"]);
      ("acts_referred", VList [
        VStr "Kerala Panchayat Raj Act, 1994";
        VStr "Kerala Panchayat Raj (Conduct of Election) Rules, 1995";
        VStr "Kerala Police Act, 1961";
        VStr "Representation of the People Act, 1951";
        VStr "Indian Penal Code, 1860";
        VStr "Tamil Nadu Panchayats Act, 1994";
        VStr "Constitution of India"])])]].

(** ** [src/app.py] *)

(** [_search_cases]: a [RepositoryError] is reported with [st.error] and
    replaced by [[]]; any other exception propagates. *)
Definition app_search_cases (result : outcome (list Document)) : outcome (list Document) :=
  match result with
  | Raise RepositoryError => Ok []
  | r => r
  end.

Definition is_str (v : value) : bool := match v with VStr _ => true | _ => false end.

(** Values a [for] loop can iterate: lists, strings (characters) and
    dicts (keys). *)
Definition iterable (v : value) : bool :=
  match v with VList _ | VStr _ | VDict _ => true | _ => false end.

(** Arguments of [", ".join(...)]: iterables of strings. *)
Definition str_iterable (v : value) : bool :=
  match v with
  | VList l => forallb is_str l
  | VStr _ | VDict _ => true
  | _ => false
  end.

(** Whether [_render_case(case)] runs to completion.  It raises when
    [_format_date] gets a truthy non-string ([datetime.fromisoformat]
    raises [TypeError], which is not caught; on a string it returns or
    catches its [ValueError]); when [search_metadata] is present and not a
    dict ([.get] raises [AttributeError]); when a truthy [issues] or
    [directions] is not iterable; when a truthy [reasoning] or [outcome]
    is not a dict, or a reasoning text is not a string ([textwrap.fill]);
    and when a truthy [bench] is not an iterable of strings.  The
    Streamlit calls accept any value. *)
Definition render_case_ok (case : Document) : bool :=
  let date := dict_get "judgment_date" case in
  (negb (truthy date) || is_str date) &&
  match dict_lookup "search_metadata" case with
  | None | Some (VDict _) => true
  | Some _ => false
  end &&
  (let v := dict_get "issues" case in negb (truthy v) || iterable v) &&
  (let v := dict_get "reasoning" case in
   negb (truthy v) ||
   match v with VDict r => forallb (fun kv => is_str (snd kv)) r | _ => false end) &&
  (let v := dict_get "outcome" case in
   negb (truthy v) ||
   match v with
   | VDict o => let ds := dict_get "directions" o in negb (truthy ds) || iterable ds
   | _ => false
   end) &&
  (let v := dict_get "bench" case in negb (truthy v) || str_iterable v).

(** What a completed run of [main] shows for a query. *)
Record page : Type := {
  error_shown : bool;          (* [st.error(str(exc))] in [_search_cases] *)
  sample_notice : bool;        (* "No results from MongoDB. Showing sample cases instead." *)
  cards : list Document        (* the cases passed to [_render_case], in order *)
}.

Definition empty_page : page := {| error_shown := false; sample_notice := false; cards := [] |}.

(** An entry [{"query": query, "results": results}] of
    [st.session_state.history]. *)
Definition history_entry : Type := (string * list Document)%type.

(** One run of [main] with the submitted [query] ([None] when nothing was
    submitted) and the session history: the page and the new history, or
    [None] when the run raises. *)
Definition main_run (search : string -> outcome (list Document)) (query : option string)
    (history : list history_entry) : option (page * list history_entry) :=
  match query with
  | None => Some (empty_page, history)
  | Some q =>
      if String.eqb q "" then Some (empty_page, history) else
      match app_search_cases (search q) with
      | Raise _ => None
      | Ok results =>
          let error := match search q with Raise RepositoryError => true | _ => false end in
          let shown := match results with [] => SAMPLE_CASES | _ => results end in
          if forallb render_case_ok shown then
            Some ({| error_shown := error;
                     sample_notice := match results with [] => true | _ => false end;
                     cards := shown |},
                  (history ++ [(q, results)])%list)
          else None
      end
  end.

(** The sidebar's "Recent queries": [history[-5:][::-1]]. *)
Definition recent_queries (history : list history_entry) : list string :=
  map fst (rev (skipn (List.length history - 5) history)).

(** ** Concrete collaborators and records for the examples *)

(** A two-dimensional embedding: the text length and a constant. *)
Definition enc_len (s : string) : option (list Q) :=
  Some [inject_Z (Z.of_nat (String.length s)); 1].

(** An embedding model whose [encode] always raises. *)
Definition enc_fail (s : string) : option (list Q) := None.

Definition case_1 : Document := [("_id", VStr "1"); ("case_title", VStr "ab")].
Definition case_2 : Document := [("_id", VStr "2"); ("case_title", VStr "abcd")].
Definition case_3 : Document := [("_id", VStr "3"); ("court", VStr "xy")].

(** A collection whose [find] yields [docs] or raises [e], whatever the
    filter. *)
Definition store_ok (docs : list Document) : string -> Z -> find_result :=
  fun _ _ => FindOk docs.
Definition store_err (e : mongo_error) : string -> Z -> find_result :=
  fun _ _ => FindErr e.

(** A repository with the default limit, not yet connected. *)
Definition repo_fresh : repository := {| limit := 5; connected := false |}.

(** Two stored records with distinct [_id] values, an [ObjectId] and a
    string, whose [str()] coincide. *)
Definition raw_oid : Document := [("_id", VOid "abc"); ("case_title", VStr "A")].
Definition raw_str : Document := [("_id", VStr "abc"); ("case_title", VStr "B")].

(** An action that only appends events to the trace. *)
Definition extends {A} (m : M A) : Prop :=
  forall t, exists u, fst (m t) = (t ++ u)%list.

(** ** Auxiliary notions of the proofs *)

Definition same_set (s1 s2 : list string) : Prop := forall i, In i s1 <-> In i s2.

(** Every document appended after [m] has a string identifier absent from
    everything before it. *)
Definition fresh_suffix (m r : list Document) : Prop :=
  forall r1 d r2 i, r = (r1 ++ d :: r2)%list -> str_id d = Some i ->
                    ~ In i (str_ids (m ++ r1)).

Definition score_ge (a b : Q * Document) : Prop := fst b <= fst a.

Definition same_score (s : Q) (p : Q * Document) : bool := Qeq_bool (fst p) s.

(** [l1] is [l2] with some elements left out, in the same order. *)
Inductive subseq {A : Type} : list A -> list A -> Prop :=
| subseq_nil : subseq [] []
| subseq_skip : forall x l1 l2, subseq l1 l2 -> subseq l1 (x :: l2)
| subseq_take : forall x l1 l2, subseq l1 l2 -> subseq (x :: l1) (x :: l2).

(** The events [_semantic_rerank] appends to the trace. *)
Definition rerank_events (model_loads : bool) (encode : string -> option (list Q))
    (query : string) (documents : list Document) : list event :=
  if (List.length documents <=? 1)%nat then [] else
  EvLoadModel ::
    (if model_loads then
       match traverse_option document_to_text documents with
       | None => []
       | Some _ => EvEncode :: match encode query with Some _ => [EvEncode] | None => [] end
       end
     else []).

(** The fields [_document_to_text] reads. *)
Definition text_keys : list string :=
  ["case_title"; "court"; "citation"; "bench"; "issues"; "search_metadata";
   "reasoning"; "outcome"].

(** * Properties of [_merge_documents] *)

Lemma str_ids_app : forall a b, str_ids (a ++ b) = (str_ids a ++ str_ids b)%list.
Proof.
  induction a as [|d a IH]; intros b; simpl; [reflexivity|].
  destruct (str_id d); rewrite IH; reflexivity.
Qed.

Lemma mem_str_In : forall i seen, mem_str i seen = true <-> In i seen.
Proof.
  intros i seen; unfold mem_str; rewrite existsb_exists; split.
  - intros (x & Hx & Heq); apply String.eqb_eq in Heq; subst; exact Hx.
  - intros H; exists i; split; [exact H | apply String.eqb_refl].
Qed.



Lemma same_set_snoc : forall m d i,
  str_id d = Some i -> same_set (i :: str_ids m) (str_ids (m ++ [d])).
Proof.
  intros m d i Hd j; rewrite str_ids_app; simpl; rewrite Hd, in_app_iff; simpl; tauto.
Qed.

Lemma str_ids_snoc_none : forall m d, str_id d = None -> str_ids (m ++ [d]) = str_ids m.
Proof.
  intros m d Hd; rewrite str_ids_app; simpl; rewrite Hd, app_nil_r; reflexivity.
Qed.

Lemma merge_documents_loop : forall p s,
  merge_documents p s = merge_loop (str_ids p) p s.
Proof. intros p [|d s]; reflexivity. Qed.



Lemma fresh_suffix_cons : forall m d r,
  (forall i, str_id d = Some i -> ~ In i (str_ids m)) ->
  fresh_suffix (m ++ [d]) r -> fresh_suffix m (d :: r).
Proof.
  intros m d r Hd Hr r1 d' r2 i Heq Hi.
  destruct r1 as [|x r1]; simpl in Heq; injection Heq as <- Heq.
  - rewrite app_nil_r; exact (Hd i Hi).
  - replace (m ++ d :: r1)%list with ((m ++ [d]) ++ r1)%list
      by (rewrite <- app_assoc; reflexivity).
    exact (Hr r1 d' r2 i Heq Hi).
Qed.

Lemma merge_loop_fresh : forall l seen m, same_set seen (str_ids m) ->
  exists r, merge_loop seen m l = (m ++ r)%list /\ fresh_suffix m r.
Proof.
  induction l as [|d l IH]; intros seen m Hs; simpl.
  - exists []; split; [rewrite app_nil_r; reflexivity|].
    intros r1 d' r2 i Heq; destruct r1; discriminate.
  - destruct (str_id d) as [i|] eqn:Hd.
    + destruct (mem_str i seen) eqn:Hm; [apply IH, Hs|].
      destruct (IH (i :: seen) (m ++ [d])%list) as (r & Hr & Hf).
      { intros j; rewrite <- (same_set_snoc m d i Hd j); simpl; rewrite (Hs j); tauto. }
      exists (d :: r); split; [rewrite Hr, <- app_assoc; reflexivity|].
      apply fresh_suffix_cons; [|exact Hf].
      intros j Hj Hin; rewrite Hd in Hj; injection Hj as <-.
      apply Hs, mem_str_In in Hin; congruence.
    + destruct (mem_doc d m); [apply IH, Hs|].
      destruct (IH seen (m ++ [d])%list) as (r & Hr & Hf).
      { rewrite (str_ids_snoc_none m d Hd); exact Hs. }
      exists (d :: r); split; [rewrite Hr, <- app_assoc; reflexivity|].
      apply fresh_suffix_cons; [|exact Hf].
      intros j Hj; congruence.
Qed.

Lemma fresh_suffix_NoDup : forall r m,
  NoDup (str_ids m) -> fresh_suffix m r -> NoDup (str_ids (m ++ r)).
Proof.
  induction r as [|d r IH]; intros m Hm Hf; [rewrite app_nil_r; exact Hm|].
  replace (m ++ d :: r)%list with ((m ++ [d]) ++ r)%list
    by (rewrite <- app_assoc; reflexivity).
  apply IH.
  - rewrite str_ids_app; simpl.
    destruct (str_id d) as [i|] eqn:Hd; [|rewrite app_nil_r; exact Hm].
    apply NoDup_app; [exact Hm | constructor; [intros []| constructor] |].
    intros x Hx Hin; destruct Hin as [Heq | []]; subst x.
    exact (Hf [] d r i eq_refl Hd ltac:(rewrite app_nil_r; exact Hx)).
  - intros r1 d' r2 i Heq Hi.
    rewrite <- app_assoc; exact (Hf (d :: r1) d' r2 i ltac:(rewrite Heq; reflexivity) Hi).
Qed.

Lemma merge_documents_NoDup : forall p s,
  NoDup (str_ids p) -> NoDup (str_ids (merge_documents p s)).
Proof.
  intros p s Hp; rewrite merge_documents_loop.
  destruct (merge_loop_fresh s (str_ids p) p (fun i => iff_refl _)) as (r & -> & Hf).
  apply fresh_suffix_NoDup; assumption.
Qed.

(** C6: merging any primary list with an empty fallback list returns the
    primary list itself, element for element and in order. *)
Theorem merge_documents_empty_fallback : forall primary,
  merge_documents primary [] = primary.
Proof. intros primary; reflexivity. Qed.

(** C7: the merged output starts with the whole primary list in its
    original order, and a fallback document is appended only if its string
    identifier (when it has one) is not the identifier of any document
    already in the output. *)
Theorem merge_documents_prefix_fresh : forall primary secondary,
  exists appended,
    merge_documents primary secondary = (primary ++ appended)%list /\
    forall before d after i,
      appended = (before ++ d :: after)%list -> str_id d = Some i ->
      ~ In i (str_ids (primary ++ before)).
Proof.
  intros primary secondary; rewrite merge_documents_loop.
  destruct (merge_loop_fresh secondary (str_ids primary) primary (fun i => iff_refl _))
    as (r & Hr & Hf).
  exists r; split; [exact Hr | exact Hf].
Qed.



(** * Properties of [_normalise_document] *)

Lemma dict_pop_keys : forall k d,
  map fst (dict_pop k d) = filter (fun k' => negb (String.eqb k k')) (map fst d).
Proof.
  intros k d; induction d as [|[k' v] d IH]; simpl; [reflexivity|].
  destruct (String.eqb k k'); simpl; rewrite IH; reflexivity.
Qed.

Lemma dict_pop_lookup : forall k d k',
  dict_lookup k' (dict_pop k d) = if String.eqb k' k then None else dict_lookup k' d.
Proof.
  intros k d k'; induction d as [|[k0 v] d IH]; simpl.
  - destruct (String.eqb k' k); reflexivity.
  - destruct (String.eqb k k0) eqn:E; simpl.
    + apply String.eqb_eq in E; subst k0. rewrite IH.
      destruct (String.eqb k' k); reflexivity.
    + rewrite IH. destruct (String.eqb k' k0) eqn:E'; [|reflexivity].
      apply String.eqb_eq in E'; subst k0.
      destruct (String.eqb k' k) eqn:E''; [|reflexivity].
      apply String.eqb_eq in E''; subst k. rewrite String.eqb_refl in E; discriminate.
Qed.

Lemma dict_set_aux_present : forall k v d w,
  dict_lookup k d = Some w ->
  exists d', dict_set_aux k v d = Some d' /\ map fst d' = map fst d /\
  forall k', dict_lookup k' d' = if String.eqb k' k then Some v else dict_lookup k' d.
Proof.
  intros k v d w; induction d as [|[k0 u] d IH]; simpl; [discriminate|].
  destruct (String.eqb k k0) eqn:E.
  - intros _; apply String.eqb_eq in E; subst k0.
    exists ((k, v) :: d); split; [reflexivity|split; [reflexivity|]].
    intros k'; simpl; destruct (String.eqb k' k); reflexivity.
  - intros H; destruct (IH H) as (d' & Hs & Hk & Hl); rewrite Hs.
    exists ((k0, u) :: d'); split; [reflexivity|split; [simpl; rewrite Hk; reflexivity|]].
    intros k'; simpl; rewrite Hl.
    destruct (String.eqb k' k0) eqn:E'; [|reflexivity].
    apply String.eqb_eq in E'; subst k0.
    destruct (String.eqb k' k) eqn:E''; [|reflexivity].
    apply String.eqb_eq in E''; subst k; rewrite String.eqb_refl in E; discriminate.
Qed.

Lemma dict_set_present : forall k v d w,
  dict_lookup k d = Some w ->
  map fst (dict_set k v d) = map fst d /\
  forall k', dict_lookup k' (dict_set k v d) =
             if String.eqb k' k then Some v else dict_lookup k' d.
Proof.
  intros k v d w H; unfold dict_set.
  destruct (dict_set_aux_present k v d w H) as (d' & -> & Hk & Hl).
  split; [exact Hk | exact Hl].
Qed.

(** C9 (counterexample): an [_id] field holding [None] is present but is
    not replaced by its string representation ["None"]. *)
Lemma normalise_none_identifier_kept :
  let raw := [("_id", VNone); ("case_title", VStr "A")] in
  normalise_document (Some raw) = raw /\
  dict_lookup "_id" (normalise_document (Some raw)) <> Some (VStr (py_str VNone)).
Proof. simpl; split; [reflexivity | discriminate]. Qed.

(** C9 (amended): a null record normalises to the empty mapping; otherwise
    the result has the same keys in the same order minus ["score"], no
    ["score"], an ["_id"] replaced by its [str()] unless it is [None], and
    every other field unchanged. *)
Theorem normalise_document_fields :
  normalise_document None = [] /\
  forall d,
    map fst (normalise_document (Some d)) =
      filter (fun k => negb (String.eqb "score" k)) (map fst d) /\
    forall k,
      dict_lookup k (normalise_document (Some d)) =
        if String.eqb k "score" then None
        else if String.eqb k "_id" then
               match dict_lookup "_id" d with
               | None => None
               | Some VNone => Some VNone
               | Some v => Some (VStr (py_str v))
               end
        else dict_lookup k d.
Proof.
  split; [reflexivity|]. intros d.
  unfold normalise_document, dict_get.
  destruct (dict_lookup "_id" d) as [v|] eqn:Hid.
  - assert (Hset : forall w, map fst (dict_pop "score" (dict_set "_id" w d)) =
                             filter (fun k => negb (String.eqb "score" k)) (map fst d) /\
                   forall k, dict_lookup k (dict_pop "score" (dict_set "_id" w d)) =
                     if String.eqb k "score" then None
                     else if String.eqb k "_id" then Some w else dict_lookup k d).
    { intros w; destruct (dict_set_present "_id" w d v Hid) as [Hk Hl]; split.
      - rewrite dict_pop_keys, Hk; reflexivity.
      - intros k; rewrite dict_pop_lookup, Hl; reflexivity. }
    destruct v; try apply Hset.
    split; [apply dict_pop_keys|].
    intros k; rewrite dict_pop_lookup.
    destruct (String.eqb k "score"); [reflexivity|].
    destruct (String.eqb k "_id") eqn:E; [|reflexivity].
    apply String.eqb_eq in E; subst k; exact Hid.
  - split; [apply dict_pop_keys|].
    intros k; rewrite dict_pop_lookup.
    destruct (String.eqb k "score"); [reflexivity|].
    destruct (String.eqb k "_id") eqn:E; [|reflexivity].
    apply String.eqb_eq in E; subst k; exact Hid.
Qed.

(** * Properties of the stable descending sort *)

Lemma insert_desc_perm : forall x l, Permutation (insert_desc x l) (x :: l).
Proof.
  intros x l; induction l as [|y l IH]; simpl; [reflexivity|].
  destruct (Qlt_le_dec (fst x) (fst y)); [|reflexivity].
  rewrite IH; apply perm_swap.
Qed.

Lemma sort_desc_perm : forall l, Permutation (sort_desc l) l.
Proof.
  induction l as [|x l IH]; simpl; [reflexivity|].
  rewrite insert_desc_perm, IH; reflexivity.
Qed.

Lemma insert_desc_hdrel : forall x y l,
  HdRel score_ge y l -> fst x <= fst y -> HdRel score_ge y (insert_desc x l).
Proof.
  intros x y [|z l] Hy Hxy; simpl.
  - constructor; exact Hxy.
  - destruct (Qlt_le_dec (fst x) (fst z)); constructor; [inversion Hy; assumption | exact Hxy].
Qed.

Lemma insert_desc_sorted : forall x l,
  Sorted score_ge l -> Sorted score_ge (insert_desc x l).
Proof.
  intros x l; induction l as [|y l IH]; intros Hs; simpl.
  - repeat constructor.
  - apply Sorted_inv in Hs as [Hl Hy].
    destruct (Qlt_le_dec (fst x) (fst y)) as [Hlt|Hle].
    + constructor; [apply IH, Hl|].
      apply insert_desc_hdrel; [exact Hy | apply Qlt_le_weak, Hlt].
    + constructor; [constructor; assumption | constructor; exact Hle].
Qed.

Lemma sort_desc_sorted : forall l, Sorted score_ge (sort_desc l).
Proof.
  induction l as [|x l IH]; simpl; [constructor|].
  apply insert_desc_sorted, IH.
Qed.

Lemma insert_desc_stable : forall s x l,
  filter (same_score s) (insert_desc x l) =
  if same_score s x then x :: filter (same_score s) l else filter (same_score s) l.
Proof.
  intros s x l; induction l as [|y l IH]; simpl.
  - destruct (same_score s x); reflexivity.
  - destruct (Qlt_le_dec (fst x) (fst y)) as [Hlt|Hle]; simpl.
    + rewrite IH.
      destruct (same_score s x) eqn:Ex, (same_score s y) eqn:Ey; try reflexivity.
      unfold same_score in Ex, Ey; apply Qeq_bool_iff in Ex, Ey.
      exfalso; apply (Qlt_not_eq _ _ Hlt).
      rewrite Ex, Ey; reflexivity.
    + destruct (same_score s x); reflexivity.
Qed.

Lemma sort_desc_stable : forall s l,
  filter (same_score s) (sort_desc l) = filter (same_score s) l.
Proof.
  intros s; induction l as [|x l IH]; simpl; [reflexivity|].
  rewrite insert_desc_stable, IH; reflexivity.
Qed.

(** * Properties of [_semantic_rerank] *)

Lemma traverse_option_length : forall {A B} (f : A -> option B) l l',
  traverse_option f l = Some l' -> List.length l' = List.length l.
Proof.
  intros A B f l; induction l as [|x l IH]; intros l' H; simpl in H.
  - injection H as <-; reflexivity.
  - destruct (f x), (traverse_option f l) eqn:E; try discriminate.
    injection H as <-; simpl; f_equal; apply IH; reflexivity.
Qed.

Lemma traverse_option_none : forall {A B} (f : A -> option B) l x,
  In x l -> f x = None -> traverse_option f l = None.
Proof.
  intros A B f l x; induction l as [|y l IH]; intros Hin Hx; [destruct Hin|].
  simpl; destruct Hin as [<-|Hin].
  - rewrite Hx; reflexivity.
  - rewrite (IH Hin Hx); destruct (f y); reflexivity.
Qed.

Lemma traverse_option_in : forall {A B} (f : A -> option B) l l' x y,
  traverse_option f l = Some l' -> In x l -> f x = Some y -> In y l'.
Proof.
  intros A B f l; induction l as [|z l IH]; intros l' x y H Hin Hx; [destruct Hin|].
  simpl in H; destruct (f z) eqn:Ez, (traverse_option f l) eqn:E; try discriminate.
  injection H as <-; destruct Hin as [<-|Hin].
  - left; congruence.
  - right; apply (IH l0 x y eq_refl Hin Hx).
Qed.

Lemma traverse_option_Forall : forall {A B} (f : A -> option B) (P : B -> Prop) l l',
  (forall x y, f x = Some y -> P y) -> traverse_option f l = Some l' -> Forall P l'.
Proof.
  intros A B f P l; induction l as [|x l IH]; intros l' Hf H; simpl in H.
  - injection H as <-; constructor.
  - destruct (f x) eqn:Ex, (traverse_option f l) eqn:E; try discriminate.
    injection H as <-; constructor; [apply (Hf x), Ex | apply IH; auto].
Qed.

Lemma map_snd_combine : forall {A B} (a : list A) (b : list B),
  List.length a = List.length b -> map snd (combine a b) = b.
Proof.
  intros A B a; induction a as [|x a IH]; intros [|y b] H; simpl in *;
    try discriminate; [reflexivity|].
  f_equal; apply IH; injection H; auto.
Qed.

Lemma matvec_some : forall rows v,
  Forall (fun r => List.length r = List.length v) rows ->
  matvec rows v = Some (map (fun r => dot r v) rows).
Proof.
  intros rows v H; unfold matvec.
  replace (forallb _ rows) with true; [reflexivity|].
  symmetry; apply forallb_forall; intros r Hr.
  apply Nat.eqb_eq; rewrite Forall_forall in H; apply H, Hr.
Qed.

Lemma semantic_rerank_outcome : forall model_loads encode query documents t,
  snd (semantic_rerank model_loads encode query documents t) =
  if (List.length documents <=? 1)%nat then Ok documents else
  match embedding_outcome model_loads encode query documents with
  | None => Ok documents
  | Some (query_vector, document_vectors) =>
      match matvec document_vectors query_vector with
      | None => Raise ValueError
      | Some scores => Ok (map snd (sort_desc (combine scores documents)))
      end
  end.
Proof.
  intros model_loads encode query documents t.
  unfold semantic_rerank, embedding_outcome.
  destruct (List.length documents <=? 1)%nat; [reflexivity|].
  unfold embed_block, catch, bind, ret, raise, emit, of_option.
  destruct model_loads; simpl; [|reflexivity].
  destruct (traverse_option document_to_text documents) as [texts|]; simpl; [|reflexivity].
  destruct (encode query) as [qv|]; simpl; [|reflexivity].
  destruct (traverse_option encode texts) as [dvs|]; simpl; [|reflexivity].
  destruct (matvec dvs qv); reflexivity.
Qed.

Lemma semantic_rerank_ok_perm : forall model_loads encode query documents t out,
  snd (semantic_rerank model_loads encode query documents t) = Ok out ->
  Permutation out documents.
Proof.
  intros model_loads encode query documents t out H.
  rewrite semantic_rerank_outcome in H.
  destruct (List.length documents <=? 1)%nat; [injection H as <-; reflexivity|].
  destruct (embedding_outcome model_loads encode query documents) as [[qv dvs]|] eqn:He;
    [|injection H as <-; reflexivity].
  destruct (matvec dvs qv) as [scores|] eqn:Hm; [|discriminate].
  injection H as <-.
  unfold embedding_outcome in He; destruct model_loads; [|discriminate].
  destruct (traverse_option document_to_text documents) as [texts|] eqn:Ht; [|discriminate].
  destruct (encode query), (traverse_option encode texts) eqn:Hd; try discriminate.
  injection He as <- <-.
  unfold matvec in Hm; destruct (forallb _ _); [|discriminate]; injection Hm as <-.
  rewrite sort_desc_perm, map_snd_combine; [reflexivity|].
  rewrite length_map, (traverse_option_length _ _ _ Hd), (traverse_option_length _ _ _ Ht).
  reflexivity.
Qed.

(** C4: when the embedding model cannot be loaded, or [encode] raises on
    the query or on the text of one of the documents, [_semantic_rerank]
    returns its input list unchanged and raises nothing. *)
Theorem semantic_rerank_provider_failure : forall model_loads encode query documents t,
  model_loads = false \/ encode query = None \/
  (exists d s, In d documents /\ document_to_text d = Some s /\ encode s = None) ->
  snd (semantic_rerank model_loads encode query documents t) = Ok documents.
Proof.
  intros model_loads encode query documents t Hfail.
  rewrite semantic_rerank_outcome.
  destruct (List.length documents <=? 1)%nat; [reflexivity|].
  replace (embedding_outcome model_loads encode query documents) with
    (@None (list Q * list (list Q))); [reflexivity|].
  unfold embedding_outcome.
  destruct Hfail as [-> | [Hq | (d & s & Hin & Hd & Hs)]]; [reflexivity| |].
  - destruct model_loads; [|reflexivity].
    destruct (traverse_option document_to_text documents); [|reflexivity].
    rewrite Hq; reflexivity.
  - destruct model_loads; [|reflexivity].
    destruct (traverse_option document_to_text documents) as [texts|] eqn:Ht; [|reflexivity].
    rewrite (traverse_option_none encode texts s
               (traverse_option_in _ _ _ _ _ Ht Hin Hd) Hs).
    destruct (encode query); reflexivity.
Qed.

Lemma semantic_rerank_provider_failure_witness :
  enc_fail "q" = None /\
  snd (semantic_rerank true enc_fail "q" [case_1; case_2] []) = Ok [case_1; case_2].
Proof.
  split; [reflexivity|].
  apply semantic_rerank_provider_failure; right; left; reflexivity.
Defined.

(** C5: when the model loads and every embedding succeeds (with vectors of
    the query's dimension), the output lists the documents by
    non-increasing score [dot document_vector query_vector]: it is a
    permutation of the scored input, sorted, and documents with equal
    scores keep their relative input order. *)
Theorem semantic_rerank_sorted_stable :
  forall encode query documents texts query_vector document_vectors t,
  traverse_option document_to_text documents = Some texts ->
  encode query = Some query_vector ->
  traverse_option encode texts = Some document_vectors ->
  Forall (fun v => List.length v = List.length query_vector) document_vectors ->
  let scores := map (fun v => dot v query_vector) document_vectors in
  exists ranked,
    snd (semantic_rerank true encode query documents t) = Ok (map snd ranked) /\
    Permutation ranked (combine scores documents) /\
    Sorted score_ge ranked /\
    forall s, filter (same_score s) ranked = filter (same_score s) (combine scores documents).
Proof.
  intros encode query documents texts qv dvs t Ht Hq Hd Hdim scores.
  assert (Hlen : List.length scores = List.length documents).
  { unfold scores; rewrite length_map, (traverse_option_length _ _ _ Hd),
      (traverse_option_length _ _ _ Ht); reflexivity. }
  rewrite semantic_rerank_outcome.
  destruct (List.length documents <=? 1)%nat eqn:Hsmall.
  - exists (combine scores documents).
    split; [rewrite map_snd_combine; [reflexivity | exact Hlen]|].
    split; [reflexivity|]; split; [|reflexivity].
    apply Nat.leb_le in Hsmall.
    assert (Hc : (List.length (combine scores documents) <= 1)%nat)
      by (rewrite length_combine; lia).
    destruct (combine scores documents) as [|x [|y l]]; simpl in Hc;
      [constructor | repeat constructor | lia].
  - exists (sort_desc (combine scores documents)).
    unfold embedding_outcome; rewrite Ht, Hq, Hd, matvec_some by exact Hdim.
    split; [reflexivity|].
    split; [apply sort_desc_perm|].
    split; [apply sort_desc_sorted|].
    intros s; apply sort_desc_stable.
Qed.

Lemma semantic_rerank_sorted_stable_witness :
  traverse_option document_to_text [case_1; case_2; case_3] = Some ["ab"; "abcd"; "xy"] /\
  enc_len "q" = Some [1; 1] /\
  traverse_option enc_len ["ab"; "abcd"; "xy"] = Some [[2; 1]; [4; 1]; [2; 1]] /\
  Forall (fun v => List.length v = List.length [1; 1]) [[2; 1]; [4; 1]; [2; 1]] /\
  let scores := map (fun v => dot v [1; 1]) [[2; 1]; [4; 1]; [2; 1]] in
  exists ranked,
    snd (semantic_rerank true enc_len "q" [case_1; case_2; case_3] []) = Ok (map snd ranked) /\
    Permutation ranked (combine scores [case_1; case_2; case_3]) /\
    Sorted score_ge ranked /\
    forall s, filter (same_score s) ranked =
              filter (same_score s) (combine scores [case_1; case_2; case_3]).
Proof.
  split; [reflexivity|]. split; [reflexivity|]. split; [reflexivity|].
  split; [repeat constructor|].
  apply (semantic_rerank_sorted_stable enc_len "q" [case_1; case_2; case_3]
           ["ab"; "abcd"; "xy"] [1; 1] [[2; 1]; [4; 1]; [2; 1]] []);
    [reflexivity | reflexivity | reflexivity | repeat constructor].
Defined.

(** C10: for an embedding model of fixed dimension, [_semantic_rerank]
    always returns (never raises), and its output is a permutation of its
    input: the same documents, each as often as in the input, unmodified. *)
Theorem semantic_rerank_permutation : forall model_loads encode dim query documents t,
  (forall s v, encode s = Some v -> List.length v = dim) ->
  exists out,
    snd (semantic_rerank model_loads encode query documents t) = Ok out /\
    Permutation out documents.
Proof.
  intros model_loads encode dim query documents t Hdim.
  assert (Hok : exists out, snd (semantic_rerank model_loads encode query documents t) = Ok out).
  { rewrite semantic_rerank_outcome.
    destruct (List.length documents <=? 1)%nat; [eexists; reflexivity|].
    destruct (embedding_outcome model_loads encode query documents) as [[qv dvs]|] eqn:He;
      [|eexists; reflexivity].
    unfold embedding_outcome in He; destruct model_loads; [|discriminate].
    destruct (traverse_option document_to_text documents) as [texts|]; [|discriminate].
    destruct (encode query) as [qv'|] eqn:Hq, (traverse_option encode texts) as [dvs'|] eqn:Hd;
      try discriminate.
    injection He as -> ->.
    rewrite matvec_some; [eexists; reflexivity|].
    apply (traverse_option_Forall encode (fun v => List.length v = List.length qv) texts);
      [|exact Hd].
    intros x y Hy; rewrite (Hdim x y Hy), (Hdim query qv Hq); reflexivity. }
  destruct Hok as [out Hout]; exists out; split; [exact Hout|].
  exact (semantic_rerank_ok_perm _ _ _ _ _ _ Hout).
Qed.

Lemma semantic_rerank_permutation_witness :
  (forall s v, enc_len s = Some v -> List.length v = 2%nat) /\
  exists out,
    snd (semantic_rerank true enc_len "q" [case_1; case_2; case_3] []) = Ok out /\
    Permutation out [case_1; case_2; case_3].
Proof.
  assert (H : forall s v, enc_len s = Some v -> List.length v = 2%nat)
    by (intros s v Hv; injection Hv as <-; reflexivity).
  split; [exact H|].
  exact (semantic_rerank_permutation true enc_len 2 "q" [case_1; case_2; case_3] [] H).
Defined.

(** * Properties of [search_cases] *)

Lemma ret_extends : forall {A} (a : A), extends (ret a).
Proof. intros A a t; exists []; rewrite app_nil_r; reflexivity. Qed.

Lemma raise_extends : forall {A} e, extends (@raise A e).
Proof. intros A e t; exists []; rewrite app_nil_r; reflexivity. Qed.

Lemma emit_extends : forall ev, extends (emit ev).
Proof. intros ev t; exists [ev]; reflexivity. Qed.

Lemma of_option_extends : forall {A} e (o : option A), extends (of_option e o).
Proof. intros A e [a|]; [apply ret_extends | apply raise_extends]. Qed.

Lemma bind_extends : forall {A B} (m : M A) (k : A -> M B),
  extends m -> (forall a, extends (k a)) -> extends (bind m k).
Proof.
  intros A B m k Hm Hk t; unfold bind.
  destruct (Hm t) as [u Hu]; destruct (m t) as [t' [a|e]]; simpl in Hu; subst t'.
  - destruct (Hk a (t ++ u)%list) as [u' Hu']; exists (u ++ u')%list.
    rewrite Hu', app_assoc; reflexivity.
  - exists u; reflexivity.
Qed.

Lemma catch_extends : forall {A} (m : M A) (h : exn -> M A),
  extends m -> (forall e, extends (h e)) -> extends (catch m h).
Proof.
  intros A m h Hm Hh t; unfold catch.
  destruct (Hm t) as [u Hu]; destruct (m t) as [t' [a|e]]; simpl in Hu; subst t'.
  - exists u; reflexivity.
  - destruct (Hh e (t ++ u)%list) as [u' Hu']; exists (u ++ u')%list.
    rewrite Hu', app_assoc; reflexivity.
Qed.

(** Every action of the pipeline only appends to the trace. *)
Ltac extends_tac :=
  repeat (cbv beta;
    match goal with
    | |- extends (bind _ _) => apply bind_extends; [|intros ?]
    | |- extends (catch _ _) => apply catch_extends; [|intros ?]
    | |- extends (ret _) => apply ret_extends
    | |- extends (raise _) => apply raise_extends
    | |- extends (emit _) => apply emit_extends
    | |- extends (of_option _ _) => apply of_option_extends
    | |- extends (match ?x with _ => _ end) => destruct x
    end).

Lemma semantic_rerank_extends : forall model_loads encode query documents,
  extends (semantic_rerank model_loads encode query documents).
Proof.
  intros model_loads encode query documents.
  unfold semantic_rerank, embed_block; extends_tac.
Qed.

(** Case analysis on every [match] of a hypothesis, with the equations. *)
Ltac split_all :=
  repeat (first
    [ discriminate
    | match goal with
      | H : (_, _) = (_, _) |- _ => injection H; clear H; intros; subst
      | H : Ok _ = Ok _ |- _ => injection H; clear H; intros; subst
      | H : context [match ?x with _ => _ end] |- _ =>
          destruct x eqn:?; cbv beta iota in *
      end ]).

Lemma str_ids_perm : forall a b, Permutation a b -> Permutation (str_ids a) (str_ids b).
Proof.
  intros a b P; induction P; simpl.
  - constructor.
  - destruct (str_id x); [constructor|]; assumption.
  - destruct (str_id x), (str_id y); try constructor; reflexivity.
  - etransitivity; eassumption.
Qed.

Lemma py_slice_upto_props : forall r docs k, (0 <= k)%Z -> Permutation r docs ->
  (Z.of_nat (List.length (py_slice_upto r k)) <= k)%Z /\
  (NoDup (str_ids docs) -> NoDup (str_ids (py_slice_upto r k))).
Proof.
  intros r docs k Hk P; unfold py_slice_upto.
  apply Z.leb_le in Hk; rewrite Hk; apply Z.leb_le in Hk; split.
  - pose proof (firstn_le_length (Z.to_nat k) r); lia.
  - intros Hd.
    apply (NoDup_app_remove_r _ (str_ids (skipn (Z.to_nat k) r))).
    rewrite <- str_ids_app, firstn_skipn.
    apply (Permutation_NoDup (Permutation_sym (str_ids_perm _ _ P)) Hd).
Qed.

(** C1 (counterexample): the full-text search returns two records whose
    [_id] values differ (an [ObjectId] and a string) but normalise to the
    same string; both are returned with identifier ["abc"]. *)
Lemma search_cases_duplicate_primary_ids :
  search_cases true enc_len None (store_ok [raw_oid; raw_str]) (store_ok [])
    repo_fresh "Kerala" [] =
  ([EvConnect; EvTextFind; EvRegexFind; EvLoadModel; EvEncode; EvEncode],
   Ok [[("_id", VStr "abc"); ("case_title", VStr "A")];
       [("_id", VStr "abc"); ("case_title", VStr "B")]]).
Proof. vm_compute; reflexivity. Qed.

(** C1 (amended): whenever [search_cases] returns a list, for a
    non-negative [limit], the list has at most [limit] documents, and its
    string identifiers are pairwise distinct provided those of the
    normalised full-text results are. *)
Theorem search_cases_limit_unique_ids :
  forall model_loads encode connect_result text_find regex_find repo query t t' out,
  (0 <= limit repo)%Z ->
  search_cases model_loads encode connect_result text_find regex_find repo query t =
    (t', Ok out) ->
  (Z.of_nat (List.length out) <= limit repo)%Z /\
  ((forall cursor, text_find query (limit repo) = FindOk cursor ->
                   NoDup (str_ids (normalise_cursor cursor))) ->
   NoDup (str_ids out)).
Proof.
  intros ml enc cr tf rf repo query t t' out Hk H.
  unfold search_cases, collection_handle, primary_search, fallback_search,
    bind, ret, raise, emit in H.
  split_all; try (split; [simpl; lia | constructor]).
  all: match goal with
       | Hr : semantic_rerank _ _ _ ?docs _ = (_, Ok ?r) |- _ =>
           destruct (py_slice_upto_props r docs _ Hk
                       (semantic_rerank_ok_perm _ _ _ _ _ _
                          ltac:(rewrite Hr; reflexivity)))
             as [Hlen Hnd];
           split; [exact Hlen | intros Hp; apply Hnd]
       end.
  all: try apply merge_documents_NoDup; first [apply Hp; reflexivity | constructor].
Qed.

Lemma search_cases_limit_unique_ids_witness :
  (0 <= limit repo_fresh)%Z /\
  search_cases true enc_len None (store_ok [case_1; case_2]) (store_ok [case_3])
    repo_fresh "q" [] =
    ([EvConnect; EvTextFind; EvRegexFind; EvLoadModel; EvEncode; EvEncode],
     Ok [case_2; case_1; case_3]) /\
  (Z.of_nat (List.length [case_2; case_1; case_3]) <= limit repo_fresh)%Z /\
  ((forall cursor, store_ok [case_1; case_2] "q" (limit repo_fresh) = FindOk cursor ->
                   NoDup (str_ids (normalise_cursor cursor))) ->
   NoDup (str_ids [case_2; case_1; case_3])).
Proof.
  assert (Hk : (0 <= limit repo_fresh)%Z) by (simpl; lia).
  assert (Hs : search_cases true enc_len None (store_ok [case_1; case_2]) (store_ok [case_3])
                 repo_fresh "q" [] =
               ([EvConnect; EvTextFind; EvRegexFind; EvLoadModel; EvEncode; EvEncode],
                Ok [case_2; case_1; case_3])) by (vm_compute; reflexivity).
  split; [exact Hk|]. split; [exact Hs|].
  exact (search_cases_limit_unique_ids true enc_len None (store_ok [case_1; case_2])
           (store_ok [case_3]) repo_fresh "q" [] _ _ Hk Hs).
Defined.

Lemma bind_ret_l : forall {A B} (a : A) (k : A -> M B) t, bind (ret a) k t = k a t.
Proof. reflexivity. Qed.

Lemma bind_first_event : forall {A B} (m : M A) (k : A -> M B) ev t,
  (exists u, fst (m t) = (t ++ ev :: u)%list) -> (forall a, extends (k a)) ->
  exists u, fst (bind m k t) = (t ++ ev :: u)%list.
Proof.
  intros A B m k ev t [u Hu] Hk; unfold bind.
  destruct (m t) as [t' [a|e]]; simpl in Hu; subst t'.
  - destruct (Hk a (t ++ ev :: u)%list) as [u' Hu']; exists (u ++ u')%list.
    rewrite Hu', <- app_assoc; reflexivity.
  - exists u; reflexivity.
Qed.

Lemma emit_first_event : forall {B} (k : unit -> M B) ev t,
  (forall a, extends (k a)) -> exists u, fst (bind (emit ev) k t) = (t ++ ev :: u)%list.
Proof.
  intros B k ev t Hk; apply bind_first_event; [exists []; reflexivity | exact Hk].
Qed.

(** C2 (counterexample): a whitespace-only query is not short-circuited:
    the repository connects and runs both store queries. *)
Lemma search_cases_whitespace_query_hits_store :
  search_cases true enc_len None (store_ok []) (store_ok []) repo_fresh " " [] =
  ([EvConnect; EvTextFind; EvRegexFind], Ok []).
Proof. vm_compute; reflexivity. Qed.

Lemma search_cases_extends : forall model_loads encode connect_result text_find regex_find repo query,
  extends (search_cases model_loads encode connect_result text_find regex_find repo query).
Proof.
  intros ml enc cr tf rf repo query.
  unfold search_cases, collection_handle, primary_search, fallback_search; extends_tac.
  all: apply semantic_rerank_extends.
Qed.

(** On a repository holding a collection, a non-empty query starts with
    the full-text query. *)
Lemma search_cases_connected_first_event :
  forall model_loads encode connect_result text_find regex_find lim query t,
  String.eqb query "" = false ->
  exists u, fst (search_cases model_loads encode connect_result text_find regex_find
                   {| limit := lim; connected := true |} query t) =
            (t ++ EvTextFind :: u)%list.
Proof.
  intros ml enc cr tf rf lim query t Hq; unfold search_cases; rewrite Hq; cbv beta iota.
  unfold collection_handle; cbn [connected]; rewrite bind_ret_l; cbv beta.
  apply bind_first_event.
  - unfold primary_search; apply emit_first_event; intros; extends_tac.
  - intros; unfold fallback_search; extends_tac; apply semantic_rerank_extends.
Qed.

(** C2 (amended): the empty query returns [[]] with the connection state
    and the trace untouched (no connection, no store query, no model).
    Any other query, whitespace included, goes on to obtain the
    collection: on a new or closed repository it first attempts a
    connection; on one holding a collection it first runs the full-text
    query; on one whose earlier connection attempt left a client but no
    collection, it raises [AttributeError] without connecting or
    querying. *)
Theorem search_cases_st_empty_query_only :
  forall model_loads encode text_find regex_find lim o s t,
  search_cases_st model_loads encode text_find regex_find lim o s "" t = (s, (t, Ok [])) /\
  forall query, String.eqb query "" = false ->
    (s = conn_fresh ->
     exists u, fst (snd (search_cases_st model_loads encode text_find regex_find lim o s query t)) =
               (t ++ EvConnect :: u)%list) /\
    (collection_set s = true ->
     exists u, fst (snd (search_cases_st model_loads encode text_find regex_find lim o s query t)) =
               (t ++ EvTextFind :: u)%list) /\
    (client_set s = true -> collection_set s = false ->
     search_cases_st model_loads encode text_find regex_find lim o s query t =
       (s, (t, Raise AttributeError))).
Proof.
  intros ml enc tf rf lim o s t; split; [reflexivity|].
  intros query Hq; unfold search_cases_st; rewrite Hq.
  split; [|split].
  - intros ->; unfold collection_handle_st, connect_st; cbn [collection_set client_set conn_fresh].
    destruct o; cbn [snd fst collection_set]; [exists []; reflexivity | exists []; reflexivity |].
    destruct (search_cases_extends ml enc None tf rf {| limit := lim; connected := true |} query
                (t ++ [EvConnect])%list) as [u Hu].
    exists u; rewrite Hu, <- app_assoc; reflexivity.
  - intros Hc; unfold collection_handle_st; rewrite Hc; cbn [snd].
    apply search_cases_connected_first_event; exact Hq.
  - intros Hcl Hc; unfold collection_handle_st, connect_st; rewrite Hc, Hcl; cbv beta iota;
    rewrite Hc; reflexivity.
Qed.

(** C3 (counterexample): the full-text query fails with an authorisation
    error reported by the server ([OperationFailure], code 13
    [Unauthorized]): the code runs the fallback query, whose own failure
    escapes unwrapped instead of a [RepositoryError]. *)
Lemma search_cases_unauthorised_runs_fallback :
  search_cases true enc_len None (store_err (OperationFailure 13))
    (store_err (OperationFailure 13)) repo_fresh "x" [] =
  ([EvConnect; EvTextFind; EvRegexFind], Raise (MongoError (OperationFailure 13))).
Proof. vm_compute; reflexivity. Qed.

(** C3 (amended): when the full-text query raises a [PyMongoError] that is
    not an [OperationFailure], [search_cases] raises [RepositoryError]
    right after it, with no fallback query and no model use; an
    [OperationFailure], whatever its code, is followed by the fallback
    query. *)
Theorem search_cases_primary_failure :
  forall model_loads encode text_find regex_find repo query t e,
  String.eqb query "" = false ->
  text_find query (limit repo) = FindErr e ->
  match e with
  | OperationFailure _ =>
      exists u,
        fst (search_cases model_loads encode None text_find regex_find repo query t) =
        (t ++ (if connected repo then [] else [EvConnect]) ++
           EvTextFind :: EvRegexFind :: u)%list
  | _ =>
      search_cases model_loads encode None text_find regex_find repo query t =
      ((t ++ (if connected repo then [] else [EvConnect]) ++ [EvTextFind])%list,
       Raise RepositoryError)
  end.
Proof.
  intros ml enc tf rf repo query t e Hq He.
  unfold search_cases, collection_handle, primary_search, fallback_search,
    bind, ret, raise, emit.
  rewrite Hq, He.
  destruct e; destruct (connected repo); cbv beta iota;
    try (simpl; repeat rewrite <- app_assoc; reflexivity).
  all: destruct (rf query (limit repo)) as [cursor|e2]; cbv beta iota;
    [|exists []; simpl; repeat rewrite <- app_assoc; reflexivity].
  all: cbn [orb]; cbv beta iota;
    match goal with
       | |- context [semantic_rerank ?a ?b ?c ?d ?tr] =>
           destruct (semantic_rerank_extends a b c d tr) as [u Hu];
           destruct (semantic_rerank a b c d tr) as [l [r|e3]];
           simpl in Hu; subst l
       end;
       eexists; simpl; repeat rewrite <- app_assoc; reflexivity.
Qed.

Lemma search_cases_primary_failure_witness :
  String.eqb "x" "" = false /\
  store_err ConnectionFailure "x" (limit repo_fresh) = FindErr ConnectionFailure /\
  search_cases true enc_len None (store_err ConnectionFailure) (store_ok []) repo_fresh "x" [] =
    ([EvConnect; EvTextFind], Raise RepositoryError).
Proof.
  split; [reflexivity|]. split; [reflexivity|].
  exact (search_cases_primary_failure true enc_len (store_err ConnectionFailure)
           (store_ok []) repo_fresh "x" [] ConnectionFailure eq_refl eq_refl).
Defined.

(** * Further properties of [src/db.py] and [src/app.py] *)

(** ** [_merge_documents] keeps its inputs' order *)

Lemma subseq_nil_l : forall {A} (l : list A), subseq [] l.
Proof. intros A l; induction l; constructor; assumption. Qed.

Lemma subseq_in : forall {A} (l1 l2 : list A) x, subseq l1 l2 -> In x l1 -> In x l2.
Proof.
  intros A l1 l2 x S; induction S; simpl; intros Hin; [exact Hin | right; auto |].
  destruct Hin as [<-|Hin]; [left; reflexivity | right; auto].
Qed.

Lemma merge_loop_subseq : forall l seen m,
  exists r, merge_loop seen m l = (m ++ r)%list /\ subseq r l.
Proof.
  induction l as [|d l IH]; intros seen m; simpl.
  - exists []; rewrite app_nil_r; split; [reflexivity | constructor].
  - destruct (str_id d) as [i|];
      [destruct (mem_str i seen) | destruct (mem_doc d m)];
      match goal with
      | |- exists r, merge_loop ?seen' (m ++ [d])%list l = _ /\ _ =>
          destruct (IH seen' (m ++ [d])%list) as (r & Hr & Sr);
          exists (d :: r); rewrite Hr, <- app_assoc; split; [reflexivity | constructor; exact Sr]
      | |- exists r, merge_loop ?seen' m l = _ /\ _ =>
          destruct (IH seen' m) as (r & Hr & Sr);
          exists r; split; [exact Hr | constructor; exact Sr]
      end.
Qed.

Lemma merge_documents_subseq_aux : forall p s,
  exists r, merge_documents p s = (p ++ r)%list /\ subseq r s.
Proof.
  intros p s; rewrite merge_documents_loop; apply merge_loop_subseq.
Qed.

Lemma merge_documents_in : forall p s d, In d (merge_documents p s) -> In d p \/ In d s.
Proof.
  intros p s d Hin; destruct (merge_documents_subseq_aux p s) as (r & Hr & Sr).
  rewrite Hr, in_app_iff in Hin; destruct Hin as [H|H]; [left; exact H|].
  right; exact (subseq_in _ _ _ Sr H).
Qed.

(** [_merge_documents] returns the primary list followed by fallback
    documents taken in their fallback order: it never reorders, repeats or
    invents a document. *)
Theorem merge_documents_subseq : forall primary secondary,
  exists appended,
    merge_documents primary secondary = (primary ++ appended)%list /\
    subseq appended secondary.
Proof. intros p s; apply merge_documents_subseq_aux. Qed.

(** ** [_normalise_document] is idempotent *)

Lemma dict_set_aux_same : forall k v d,
  dict_lookup k d = Some v -> dict_set_aux k v d = Some d.
Proof.
  intros k v d; induction d as [|[k0 w] d IH]; simpl; [discriminate|].
  destruct (String.eqb k k0) eqn:E.
  - intros H; injection H as ->; apply String.eqb_eq in E; subst k0; reflexivity.
  - intros H; rewrite (IH H); reflexivity.
Qed.

Lemma dict_set_same : forall k v d, dict_lookup k d = Some v -> dict_set k v d = d.
Proof. intros k v d H; unfold dict_set; rewrite (dict_set_aux_same k v d H); reflexivity. Qed.

Lemma dict_pop_idem : forall k d, dict_pop k (dict_pop k d) = dict_pop k d.
Proof.
  intros k d; induction d as [|[k0 w] d IH]; simpl; [reflexivity|].
  destruct (String.eqb k k0) eqn:E; simpl; [exact IH|].
  rewrite E; simpl; rewrite IH; reflexivity.
Qed.

Lemma normalise_lookup_id : forall d,
  dict_lookup "_id" (normalise_document (Some d)) =
  match dict_lookup "_id" d with
  | None => None
  | Some VNone => Some VNone
  | Some v => Some (VStr (py_str v))
  end.
Proof.
  intros d; unfold normalise_document, dict_get.
  destruct (dict_lookup "_id" d) as [v|] eqn:Hid.
  - destruct v; rewrite dict_pop_lookup; simpl; try exact Hid;
      erewrite (proj2 (dict_set_present _ _ d _ Hid)); reflexivity.
  - rewrite dict_pop_lookup; exact Hid.
Qed.

(** Normalising a normalised record changes nothing. *)
Theorem normalise_document_idempotent : forall d,
  normalise_document (Some (normalise_document (Some d))) = normalise_document (Some d).
Proof.
  intros d.
  pose proof (normalise_lookup_id d) as Hn.
  remember (normalise_document (Some d)) as n eqn:En.
  assert (Hpop : dict_pop "score" n = n).
  { rewrite En; unfold normalise_document.
    destruct (dict_get "_id" d); apply dict_pop_idem. }
  unfold normalise_document at 1, dict_get.
  destruct (dict_lookup "_id" d) as [v|]; [destruct v|]; rewrite Hn; cbv beta iota;
    try (erewrite dict_set_same by exact Hn); exact Hpop.
Qed.

(** A record whose [_id] is present and not [None] comes out of
    [_normalise_document] with the string identifier [str(_id)], so the
    identifier-based deduplication of [_merge_documents] applies to it. *)
Theorem normalise_document_str_id : forall d v,
  dict_lookup "_id" d = Some v -> v <> VNone ->
  str_id (normalise_document (Some d)) = Some (py_str v).
Proof.
  intros d v Hid Hv; unfold str_id, dict_get; rewrite normalise_lookup_id, Hid.
  destruct v; [contradiction | reflexivity ..].
Qed.

Lemma normalise_document_str_id_witness :
  dict_lookup "_id" raw_oid = Some (VOid "abc") /\ VOid "abc" <> VNone /\
  str_id (normalise_document (Some raw_oid)) = Some (py_str (VOid "abc")).
Proof.
  assert (H1 : dict_lookup "_id" raw_oid = Some (VOid "abc")) by reflexivity.
  assert (H2 : VOid "abc" <> VNone) by discriminate.
  split; [exact H1|]; split; [exact H2|].
  exact (normalise_document_str_id raw_oid (VOid "abc") H1 H2).
Defined.

(** ** [_document_to_text] *)

Lemma document_to_text_none_aux : forall d,
  document_to_text d = None <->
  exists v, dict_lookup "search_metadata" d = Some v /\ forall m, v <> VDict m.
Proof.
  intros d; unfold document_to_text.
  destruct (dict_lookup "search_metadata" d) as [v|]; split.
  - intros H; destruct v; try discriminate H;
      (eexists; split; [reflexivity | intros m; discriminate]).
  - intros (w & Hw & Hm); injection Hw as <-; destruct v; try reflexivity.
    exfalso; exact (Hm _ eq_refl).
  - discriminate.
  - intros (w & Hw & _); discriminate.
Qed.

(** The text of a record only depends on the eight fields
    [_document_to_text] reads: [_id], [judgment_date], [parties] or any
    other field has no influence on the semantic ranking. *)
Theorem document_to_text_text_keys : forall d1 d2,
  (forall k, In k text_keys -> dict_lookup k d1 = dict_lookup k d2) ->
  document_to_text d1 = document_to_text d2.
Proof.
  intros d1 d2 H; unfold document_to_text, dict_get; simpl flat_map.
  rewrite !(H "case_title"), !(H "court"), !(H "citation"), !(H "bench"),
    !(H "issues"), !(H "search_metadata"), !(H "reasoning"), !(H "outcome")
    by (simpl; tauto).
  reflexivity.
Qed.

Lemma document_to_text_text_keys_witness :
  (forall k, In k text_keys ->
     dict_lookup k [("_id", VStr "1"); ("case_title", VStr "ab")] =
     dict_lookup k [("case_title", VStr "ab"); ("FileID", VInt 7)]) /\
  document_to_text [("_id", VStr "1"); ("case_title", VStr "ab")] =
  document_to_text [("case_title", VStr "ab"); ("FileID", VInt 7)].
Proof.
  assert (H : forall k, In k text_keys ->
     dict_lookup k [("_id", VStr "1"); ("case_title", VStr "ab")] =
     dict_lookup k [("case_title", VStr "ab"); ("FileID", VInt 7)]).
  { intros k Hk; simpl in Hk;
      repeat (destruct Hk as [<-|Hk]; [reflexivity|]); destruct Hk. }
  split; [exact H | exact (document_to_text_text_keys _ _ H)].
Defined.

(** ** [_semantic_rerank]: model use *)

Lemma semantic_rerank_trace : forall model_loads encode query documents t,
  fst (semantic_rerank model_loads encode query documents t) =
  (t ++ rerank_events model_loads encode query documents)%list.
Proof.
  intros ml enc query documents t.
  unfold semantic_rerank, embed_block, rerank_events, of_option, bind, catch, ret, raise, emit.
  destruct (List.length documents <=? 1)%nat; [rewrite app_nil_r; reflexivity|].
  destruct ml; [|reflexivity].
  destruct (traverse_option document_to_text documents) as [texts|];
    [|simpl; rewrite <- ?app_assoc; reflexivity].
  destruct (enc query) as [qv|]; [|simpl; rewrite <- ?app_assoc; reflexivity].
  destruct (traverse_option enc texts) as [dvs|]; [|simpl; rewrite <- ?app_assoc; reflexivity].
  destruct (matvec dvs qv); simpl; rewrite <- ?app_assoc; reflexivity.
Qed.

(** With two documents or more, [_semantic_rerank] loads the model once
    and calls [encode] at most twice (the query, then all the texts in one
    batch), however many documents there are. *)
Theorem semantic_rerank_encode_calls : forall model_loads encode query documents t,
  (1 < List.length documents)%nat ->
  exists k, (k <= 2)%nat /\
    fst (semantic_rerank model_loads encode query documents t) =
    (t ++ EvLoadModel :: repeat EvEncode k)%list.
Proof.
  intros ml enc query documents t H; rewrite semantic_rerank_trace; unfold rerank_events.
  replace (List.length documents <=? 1)%nat with false by (symmetry; apply Nat.leb_gt; exact H).
  destruct ml; [|exists 0%nat; split; [lia | reflexivity]].
  destruct (traverse_option document_to_text documents); [|exists 0%nat; split; [lia | reflexivity]].
  destruct (enc query); [exists 2%nat | exists 1%nat]; split; (lia || reflexivity).
Qed.

Lemma semantic_rerank_encode_calls_witness :
  (1 < List.length [case_1; case_2; case_3])%nat /\
  exists k, (k <= 2)%nat /\
    fst (semantic_rerank true enc_len "q" [case_1; case_2; case_3] []) =
    ([] ++ EvLoadModel :: repeat EvEncode k)%list.
Proof.
  assert (H : (1 < List.length [case_1; case_2; case_3])%nat) by (simpl; lia).
  split; [exact H | exact (semantic_rerank_encode_calls true enc_len "q" _ [] H)].
Defined.

(** A document whose [search_metadata] is not a dict makes the text
    conversion raise; [_semantic_rerank] then returns the documents in
    their input order even with a working model, which it has loaded
    without encoding anything. *)
Theorem semantic_rerank_non_dict_metadata :
  forall model_loads encode query (documents : list Document) (d : Document) v t,
  In d documents -> dict_lookup "search_metadata" d = Some v -> (forall m, v <> VDict m) ->
  semantic_rerank model_loads encode query documents t =
  ((t ++ if (List.length documents <=? 1)%nat then [] else [EvLoadModel])%list,
   Ok documents).
Proof.
  intros ml enc query documents d v t Hin Hv Hm.
  assert (Hd : document_to_text d = None)
    by (apply document_to_text_none_aux; exists v; split; assumption).
  pose proof (traverse_option_none _ _ _ Hin Hd) as Ht.
  pose proof (semantic_rerank_trace ml enc query documents t) as Htr.
  pose proof (semantic_rerank_outcome ml enc query documents t) as Hout.
  destruct (semantic_rerank ml enc query documents t) as [t' r]; simpl in Htr, Hout.
  subst t'; unfold rerank_events; unfold embedding_outcome in Hout; rewrite Ht; rewrite Ht in Hout.
  destruct (List.length documents <=? 1)%nat; [rewrite Hout; reflexivity|].
  destruct ml; rewrite Hout; reflexivity.
Qed.

Lemma semantic_rerank_non_dict_metadata_witness :
  let bad := [("_id", VStr "4"); ("search_metadata", VNone)] in
  In bad [case_1; bad; case_2] /\
  dict_lookup "search_metadata" bad = Some VNone /\ (forall m, VNone <> VDict m) /\
  semantic_rerank true enc_len "q" [case_1; bad; case_2] [] =
  (([] ++ if (List.length [case_1; bad; case_2] <=? 1)%nat then [] else [EvLoadModel])%list,
   Ok [case_1; bad; case_2]).
Proof.
  intros bad.
  assert (H1 : In bad [case_1; bad; case_2]) by (simpl; tauto).
  assert (H2 : dict_lookup "search_metadata" bad = Some VNone) by reflexivity.
  assert (H3 : forall m, VNone <> VDict m) by (intros m; discriminate).
  split; [exact H1|]; split; [exact H2|]; split; [exact H3|].
  exact (semantic_rerank_non_dict_metadata true enc_len "q" _ bad VNone [] H1 H2 H3).
Defined.

(** ** [search_cases]: fallback, provenance and failures *)

Lemma py_slice_upto_in : forall {A} (l : list A) k x, In x (py_slice_upto l k) -> In x l.
Proof.
  intros A l k x H; unfold py_slice_upto in H.
  destruct (0 <=? k)%Z;
    [rewrite <- (firstn_skipn (Z.to_nat k) l) | rewrite <- (firstn_skipn (List.length l - Z.to_nat (- k)) l)];
    apply in_or_app; left; exact H.
Qed.

Lemma rerank_events_no_regex : forall model_loads encode query documents,
  ~ In EvRegexFind (rerank_events model_loads encode query documents).
Proof.
  intros ml enc query documents; unfold rerank_events.
  destruct (List.length documents <=? 1)%nat; [intros []|].
  destruct ml; [destruct (traverse_option document_to_text documents);
                [destruct (enc query)|]|];
  simpl; intuition discriminate.
Qed.

Lemma fst_bind_pure : forall {A B} (m : M A) (k : A -> M B) t,
  (forall a t', fst (k a t') = t') -> fst (bind m k t) = fst (m t).
Proof.
  intros A B m k t Hk; unfold bind; destruct (m t) as [t' [a|e]]; [apply Hk | reflexivity].
Qed.

Lemma normalise_cursor_length : forall c, List.length (normalise_cursor c) = List.length c.
Proof. intros c; unfold normalise_cursor; apply length_map. Qed.

(** [search_cases] when the full-text query yields [cursor]. *)
Lemma search_cases_primary_ok : forall model_loads encode text_find regex_find repo query t cursor,
  String.eqb query "" = false -> text_find query (limit repo) = FindOk cursor ->
  let p := normalise_cursor cursor in
  let pre := ((if connected repo then t else t ++ [EvConnect]) ++ [EvTextFind])%list in
  search_cases model_loads encode None text_find regex_find repo query t =
  if (Z.of_nat (List.length p) <? limit repo)%Z then
    match regex_find query (limit repo) with
    | FindOk fc =>
        bind (semantic_rerank model_loads encode query (merge_documents p (normalise_cursor fc)))
             (fun r => ret (py_slice_upto r (limit repo))) (pre ++ [EvRegexFind])%list
    | FindErr e => ((pre ++ [EvRegexFind])%list, Raise (MongoError e))
    end
  else bind (semantic_rerank model_loads encode query p)
            (fun r => ret (py_slice_upto r (limit repo))) pre.
Proof.
  intros ml enc tf rf repo query t cursor Hq Ht p pre.
  unfold search_cases; rewrite Hq; cbv beta iota.
  unfold collection_handle, primary_search, fallback_search, pre.
  destruct (connected repo); unfold bind at 1 2, ret at 1, emit at 1;
    cbv beta iota; unfold bind at 1, emit at 1; cbv beta iota;
    unfold bind at 1; rewrite Ht; cbv beta iota; unfold ret at 1; cbv beta iota;
    cbn [orb]; unfold p;
    destruct (Z.of_nat (List.length (normalise_cursor cursor)) <? limit repo)%Z;
    unfold bind, ret, raise, emit; cbv beta iota;
    try (destruct (rf query (limit repo))); reflexivity.
Qed.

(** When the full-text query succeeds, [search_cases] runs the regex
    fallback query exactly when it returned fewer than [limit] records. *)
Theorem search_cases_fallback_iff_short :
  forall model_loads encode text_find regex_find repo query t cursor,
  String.eqb query "" = false -> text_find query (limit repo) = FindOk cursor ->
  exists u,
    fst (search_cases model_loads encode None text_find regex_find repo query t) = (t ++ u)%list /\
    (In EvRegexFind u <-> (Z.of_nat (List.length cursor) < limit repo)%Z).
Proof.
  intros ml enc tf rf repo query t cursor Hq Ht.
  rewrite (search_cases_primary_ok ml enc tf rf repo query t cursor Hq Ht); cbv zeta.
  rewrite normalise_cursor_length.
  destruct (Z.of_nat (List.length cursor) <? limit repo)%Z eqn:Hl;
    [apply Z.ltb_lt in Hl | apply Z.ltb_ge in Hl].
  - destruct (rf query (limit repo)) as [fc|e];
      [rewrite fst_bind_pure by (intros; reflexivity); rewrite semantic_rerank_trace|];
      simpl fst; destruct (connected repo); eexists;
      (split; [rewrite <- ?app_assoc; reflexivity|]);
      (split; [intros _; exact Hl | intros _; rewrite ?in_app_iff; simpl; tauto]).
  - rewrite fst_bind_pure by (intros; reflexivity); rewrite semantic_rerank_trace.
    destruct (connected repo); eexists;
      (split; [rewrite <- ?app_assoc; reflexivity|]);
      (split; [|intros; lia]);
      intros H; exfalso; rewrite ?in_app_iff in H; simpl in H;
      decompose [or] H;
      first [discriminate | contradiction | eapply rerank_events_no_regex; eassumption].
Qed.

Lemma search_cases_fallback_iff_short_witness :
  String.eqb "q" "" = false /\
  store_ok [case_1; case_2] "q" (limit repo_fresh) = FindOk [case_1; case_2] /\
  exists u,
    fst (search_cases true enc_len None (store_ok [case_1; case_2]) (store_ok [case_3])
           repo_fresh "q" []) = ([] ++ u)%list /\
    (In EvRegexFind u <-> (Z.of_nat (List.length [case_1; case_2]) < limit repo_fresh)%Z).
Proof.
  split; [reflexivity|]; split; [reflexivity|].
  exact (search_cases_fallback_iff_short true enc_len (store_ok [case_1; case_2])
           (store_ok [case_3]) repo_fresh "q" [] [case_1; case_2] eq_refl eq_refl).
Defined.

(** Every document [search_cases] returns is a normalised record yielded
    by the full-text query or by the regex fallback query. *)
Theorem search_cases_results_from_store :
  forall model_loads encode connect_result text_find regex_find repo query t t' out d,
  search_cases model_loads encode connect_result text_find regex_find repo query t =
    (t', Ok out) ->
  In d out ->
  (exists c, text_find query (limit repo) = FindOk c /\ In d (normalise_cursor c)) \/
  (exists c, regex_find query (limit repo) = FindOk c /\ In d (normalise_cursor c)).
Proof.
  intros ml enc cr tf rf repo query t t' out d H Hd.
  unfold search_cases, collection_handle, primary_search, fallback_search,
    bind, ret, raise, emit in H.
  split_all; try (destruct Hd; fail).
  all: match goal with
       | Hr : semantic_rerank _ _ _ ?docs _ = (_, Ok ?r) |- _ =>
           apply py_slice_upto_in in Hd;
           apply (Permutation_in _ (semantic_rerank_ok_perm _ _ _ _ _ _
                                      ltac:(rewrite Hr; reflexivity))) in Hd
       end.
  all: try (apply merge_documents_in in Hd; destruct Hd as [Hd|Hd]; [try destruct Hd|]).
  all: first [ left; eexists; split; [reflexivity || eassumption | exact Hd]
             | right; eexists; split; [reflexivity || eassumption | exact Hd] ].
Qed.

Lemma search_cases_results_from_store_witness :
  search_cases true enc_len None (store_ok [case_1; case_2]) (store_ok [case_3])
    repo_fresh "q" [] =
    ([EvConnect; EvTextFind; EvRegexFind; EvLoadModel; EvEncode; EvEncode],
     Ok [case_2; case_1; case_3]) /\
  In case_3 [case_2; case_1; case_3] /\
  ((exists c, store_ok [case_1; case_2] "q" (limit repo_fresh) = FindOk c /\
              In case_3 (normalise_cursor c)) \/
   (exists c, store_ok [case_3] "q" (limit repo_fresh) = FindOk c /\
              In case_3 (normalise_cursor c))).
Proof.
  assert (Hs : search_cases true enc_len None (store_ok [case_1; case_2]) (store_ok [case_3])
                 repo_fresh "q" [] =
               ([EvConnect; EvTextFind; EvRegexFind; EvLoadModel; EvEncode; EvEncode],
                Ok [case_2; case_1; case_3])) by (vm_compute; reflexivity).
  assert (Hi : In case_3 [case_2; case_1; case_3]) by (simpl; tauto).
  split; [exact Hs|]; split; [exact Hi|].
  exact (search_cases_results_from_store true enc_len None (store_ok [case_1; case_2])
           (store_ok [case_3]) repo_fresh "q" [] _ _ case_3 Hs Hi).
Defined.

Lemma semantic_rerank_model_down : forall encode query documents t,
  snd (semantic_rerank false encode query documents t) = Ok documents.
Proof.
  intros enc query documents t; rewrite semantic_rerank_outcome.
  destruct (List.length documents <=? 1)%nat; reflexivity.
Qed.

(** When the embedding model cannot be loaded, [search_cases] returns the
    first [limit] documents in store order: the full-text results, followed
    by the merged fallback results when there were fewer than [limit]. *)
Theorem search_cases_model_unavailable :
  forall encode text_find regex_find repo query t cursor fcursor,
  String.eqb query "" = false ->
  text_find query (limit repo) = FindOk cursor ->
  regex_find query (limit repo) = FindOk fcursor ->
  snd (search_cases false encode None text_find regex_find repo query t) =
  Ok (py_slice_upto
        (let p := normalise_cursor cursor in
         if (Z.of_nat (List.length p) <? limit repo)%Z
         then merge_documents p (normalise_cursor fcursor) else p)
        (limit repo)).
Proof.
  intros enc tf rf repo query t cursor fcursor Hq Ht Hr.
  rewrite (search_cases_primary_ok false enc tf rf repo query t cursor Hq Ht); cbv zeta.
  destruct (Z.of_nat (List.length (normalise_cursor cursor)) <? limit repo)%Z;
    [rewrite Hr|]; unfold bind, ret;
    match goal with
    | |- context [semantic_rerank false enc query ?docs ?tr] =>
        pose proof (semantic_rerank_model_down enc query docs tr) as Hd;
        destruct (semantic_rerank false enc query docs tr) as [tr' r];
        simpl in Hd; subst r; reflexivity
    end.
Qed.

Lemma search_cases_model_unavailable_witness :
  String.eqb "q" "" = false /\
  store_ok [case_1; case_2] "q" (limit repo_fresh) = FindOk [case_1; case_2] /\
  store_ok [case_3] "q" (limit repo_fresh) = FindOk [case_3] /\
  snd (search_cases false enc_len None (store_ok [case_1; case_2]) (store_ok [case_3])
         repo_fresh "q" []) =
  Ok (py_slice_upto
        (let p := normalise_cursor [case_1; case_2] in
         if (Z.of_nat (List.length p) <? limit repo_fresh)%Z
         then merge_documents p (normalise_cursor [case_3]) else p)
        (limit repo_fresh)).
Proof.
  split; [reflexivity|]; split; [reflexivity|]; split; [reflexivity|].
  exact (search_cases_model_unavailable enc_len (store_ok [case_1; case_2]) (store_ok [case_3])
           repo_fresh "q" [] [case_1; case_2] [case_3] eq_refl eq_refl eq_refl).
Defined.

(** When the full-text query returns fewer than [limit] records and the
    regex fallback query raises a [PyMongoError], that error escapes
    [search_cases] as it is, not as a [RepositoryError], right after the
    fallback query and before any model use. *)
Theorem search_cases_fallback_error_escapes :
  forall model_loads encode text_find regex_find repo query t cursor e,
  String.eqb query "" = false ->
  text_find query (limit repo) = FindOk cursor ->
  (Z.of_nat (List.length cursor) < limit repo)%Z ->
  regex_find query (limit repo) = FindErr e ->
  search_cases model_loads encode None text_find regex_find repo query t =
  ((t ++ (if connected repo then [] else [EvConnect]) ++ [EvTextFind; EvRegexFind])%list,
   Raise (MongoError e)).
Proof.
  intros ml enc tf rf repo query t cursor e Hq Ht Hl Hr.
  rewrite (search_cases_primary_ok ml enc tf rf repo query t cursor Hq Ht); cbv zeta.
  rewrite normalise_cursor_length.
  apply Z.ltb_lt in Hl; rewrite Hl, Hr.
  destruct (connected repo); rewrite <- ?app_assoc; reflexivity.
Qed.

Lemma search_cases_fallback_error_escapes_witness :
  String.eqb "q" "" = false /\
  store_ok [] "q" (limit repo_fresh) = FindOk [] /\
  (Z.of_nat (List.length (@nil Document)) < limit repo_fresh)%Z /\
  store_err NetworkTimeout "q" (limit repo_fresh) = FindErr NetworkTimeout /\
  search_cases true enc_len None (store_ok []) (store_err NetworkTimeout) repo_fresh "q" [] =
  (([] ++ (if connected repo_fresh then [] else [EvConnect]) ++ [EvTextFind; EvRegexFind])%list,
   Raise (MongoError NetworkTimeout)).
Proof.
  assert (Hl : (Z.of_nat (List.length (@nil Document)) < limit repo_fresh)%Z) by (simpl; lia).
  split; [reflexivity|]; split; [reflexivity|]; split; [exact Hl|]; split; [reflexivity|].
  exact (search_cases_fallback_error_escapes true enc_len (store_ok []) (store_err NetworkTimeout)
           repo_fresh "q" [] [] NetworkTimeout eq_refl eq_refl Hl eq_refl).
Defined.

(** ** Connection lifecycle *)

(** After a failed [ping], [_client] stays set and [_collection] stays
    [None]: the first search raises [RepositoryError], and every later
    search on the same object, whatever the server's state, raises
    [AttributeError] ([None.find]) without a new connection attempt and
    without a store query. *)
Theorem search_cases_st_failed_ping_stale :
  forall model_loads encode text_find regex_find lim e o query query' t t',
  String.eqb query "" = false -> String.eqb query' "" = false ->
  let (s1, r1) := search_cases_st model_loads encode text_find regex_find lim
                    (PingFails e) conn_fresh query t in
  r1 = ((t ++ [EvConnect])%list, Raise RepositoryError) /\
  s1 = {| client_set := true; collection_set := false |} /\
  search_cases_st model_loads encode text_find regex_find lim o s1 query' t' =
    (s1, (t', Raise AttributeError)).
Proof.
  intros ml enc tf rf lim e o query query' t t' Hq Hq'.
  unfold search_cases_st at 1; rewrite Hq; cbn -[search_cases].
  split; [reflexivity|]; split; [reflexivity|].
  unfold search_cases_st; rewrite Hq'; reflexivity.
Qed.

Lemma search_cases_st_failed_ping_stale_witness :
  String.eqb "q" "" = false /\ String.eqb "r" "" = false /\
  let (s1, r1) := search_cases_st true enc_len (store_ok [case_1]) (store_ok []) 5
                    (PingFails ServerSelectionTimeoutError) conn_fresh "q" [] in
  r1 = (([] ++ [EvConnect])%list, Raise RepositoryError) /\
  s1 = {| client_set := true; collection_set := false |} /\
  search_cases_st true enc_len (store_ok [case_1]) (store_ok []) 5 PingOk s1 "r" [] =
    (s1, ([], Raise AttributeError)).
Proof.
  split; [reflexivity|]; split; [reflexivity|].
  exact (search_cases_st_failed_ping_stale true enc_len (store_ok [case_1]) (store_ok []) 5
           ServerSelectionTimeoutError PingOk "q" "r" [] [] eq_refl eq_refl).
Defined.

(** [_connect], [collection_handle] and [close] never leave a collection
    without a client. *)
Theorem conn_ok_preserved :
  forall model_loads encode text_find regex_find lim o s query t,
  conn_ok s ->
  conn_ok (fst (search_cases_st model_loads encode text_find regex_find lim o s query t)) /\
  conn_ok (fst (fst (collection_handle_st o s t))) /\
  conn_ok (close_st s).
Proof.
  intros ml enc tf rf lim o [[] []] query t Hs; unfold conn_ok in *; simpl in *;
    (split; [|split]);
    unfold search_cases_st, collection_handle_st, connect_st, close_st; simpl;
    try (destruct (String.eqb query "")); try destruct o; simpl; auto.
Qed.

Lemma conn_ok_preserved_witness :
  conn_ok conn_fresh /\
  conn_ok (fst (search_cases_st true enc_len (store_ok [case_1]) (store_ok []) 5
                  (PingFails ConnectionFailure) conn_fresh "q" [])) /\
  conn_ok (fst (fst (collection_handle_st (PingFails ConnectionFailure) conn_fresh []))) /\
  conn_ok (close_st conn_fresh).
Proof.
  assert (H : conn_ok conn_fresh) by (intros Hc; discriminate Hc).
  split; [exact H|].
  exact (conn_ok_preserved true enc_len (store_ok [case_1]) (store_ok []) 5
           (PingFails ConnectionFailure) conn_fresh "q" [] H).
Defined.

(** After [close], and on a new object, a search attempts a connection
    and then behaves as the single-call model [search_cases] of an
    unconnected repository: in particular [close] recovers from the state
    left by a failed [ping]. *)
Theorem search_cases_st_after_close :
  forall model_loads encode text_find regex_find lim o s query t,
  conn_ok s ->
  snd (search_cases_st model_loads encode text_find regex_find lim o (close_st s) query t) =
  search_cases model_loads encode (connect_result_of o) text_find regex_find
    {| limit := lim; connected := false |} query t.
Proof.
  intros ml enc tf rf lim o s query t Hs.
  replace (close_st s) with conn_fresh
    by (destruct s as [[] []]; unfold conn_ok in Hs; simpl in *; auto;
        discriminate (Hs eq_refl)).
  unfold search_cases_st, search_cases.
  destruct (String.eqb query ""); [reflexivity|].
  destruct o; reflexivity.
Qed.

Lemma search_cases_st_after_close_witness :
  conn_ok {| client_set := true; collection_set := false |} /\
  snd (search_cases_st true enc_len (store_ok [case_1]) (store_ok []) 5 PingOk
         (close_st {| client_set := true; collection_set := false |}) "q" []) =
  search_cases true enc_len (connect_result_of PingOk) (store_ok [case_1]) (store_ok [])
    {| limit := 5; connected := false |} "q" [].
Proof.
  assert (H : conn_ok {| client_set := true; collection_set := false |})
    by (intros _; reflexivity).
  split; [exact H|].
  exact (search_cases_st_after_close true enc_len (store_ok [case_1]) (store_ok []) 5 PingOk
           _ "q" [] H).
Defined.

(** ** [src/app.py]: [_search_cases] and [main] *)

Lemma sample_cases_render : forallb render_case_ok SAMPLE_CASES = true.
Proof. vm_compute; reflexivity. Qed.

(** When the repository raises [RepositoryError], or finds nothing, the
    run shows the sample cases after the notice (and the error message in
    the first case), and records the query with an empty result list. *)
Theorem main_run_sample_cases : forall search q history,
  String.eqb q "" = false ->
  search q = Raise RepositoryError \/ search q = Ok [] ->
  main_run search (Some q) history =
  Some ({| error_shown := match search q with Raise _ => true | Ok _ => false end;
           sample_notice := true;
           cards := SAMPLE_CASES |},
        (history ++ [(q, [])])%list).
Proof.
  intros search q history Hq Hs; unfold main_run, app_search_cases; rewrite Hq.
  destruct Hs as [Hs|Hs]; rewrite Hs; cbv beta iota; rewrite sample_cases_render; reflexivity.
Qed.

Lemma main_run_sample_cases_witness :
  String.eqb "q" "" = false /\
  ((fun _ : string => @Raise (list Document) RepositoryError) "q" = Raise RepositoryError \/
   (fun _ : string => @Raise (list Document) RepositoryError) "q" = Ok []) /\
  main_run (fun _ => Raise RepositoryError) (Some "q") [] =
  Some ({| error_shown := true; sample_notice := true; cards := SAMPLE_CASES |},
        ([] ++ [("q", [])])%list).
Proof.
  split; [reflexivity|]; split; [left; reflexivity|].
  exact (main_run_sample_cases (fun _ => Raise RepositoryError) "q" [] eq_refl
           (or_introl eq_refl)).
Defined.

Lemma forallb_false_in : forall {A} (f : A -> bool) l x,
  In x l -> f x = false -> forallb f l = false.
Proof.
  intros A f l x Hin Hx; destruct (forallb f l) eqn:E; [|reflexivity].
  rewrite forallb_forall in E; rewrite (E x Hin) in Hx; discriminate.
Qed.

(** A result whose [search_metadata] is present but not a dict, the
    record [_document_to_text] cannot convert, also makes [_render_case]
    raise: the run aborts and the query is not recorded. *)
Theorem main_run_untextable_result : forall search q history results d,
  String.eqb q "" = false -> search q = Ok results -> In d results ->
  document_to_text d = None ->
  main_run search (Some q) history = None.
Proof.
  intros search q history results d Hq Hs Hin Hd.
  apply document_to_text_none_aux in Hd; destruct Hd as (v & Hv & Hm).
  assert (Hr : render_case_ok d = false).
  { unfold render_case_ok; rewrite Hv.
    destruct v; try (exfalso; eapply Hm; reflexivity); cbv beta iota zeta;
      rewrite andb_false_r; reflexivity. }
  unfold main_run, app_search_cases; rewrite Hq, Hs.
  destruct results as [|r0 rs]; [destruct Hin|]; cbv beta iota.
  rewrite (forallb_false_in _ _ _ Hin Hr); reflexivity.
Qed.

(** For instance a stored record whose [search_metadata] is [null]. *)
Lemma main_run_untextable_result_witness :
  let bad := [("_id", VStr "9"); ("case_title", VStr "T"); ("search_metadata", VNone)] in
  let search := fun q => snd (search_cases true enc_len None (store_ok [bad])
                                (store_ok []) repo_fresh q []) in
  String.eqb "q" "" = false /\ search "q" = Ok [bad] /\ In bad [bad] /\
  document_to_text bad = None /\
  main_run search (Some "q") [] = None.
Proof.
  intros bad search.
  assert (Hs : search "q" = Ok [bad]) by (vm_compute; reflexivity).
  assert (Hi : In bad [bad]) by (left; reflexivity).
  assert (Hd : document_to_text bad = None) by reflexivity.
  split; [reflexivity|]; split; [exact Hs|]; split; [exact Hi|]; split; [exact Hd|].
  exact (main_run_untextable_result search "q" [] [bad] bad eq_refl Hs Hi Hd).
Defined.

Lemma recent_queries_snoc : forall history x,
  recent_queries (history ++ [x]) = fst x :: firstn 4 (recent_queries history).
Proof.
  intros h x; unfold recent_queries.
  rewrite length_app, skipn_app; simpl List.length.
  replace (List.length h + 1 - 5 - List.length h)%nat with 0%nat by lia.
  cbn [skipn]; rewrite rev_app_distr; cbn [rev app map].
  f_equal. rewrite firstn_map, firstn_rev, skipn_skipn, length_skipn.
  f_equal; f_equal; f_equal; lia.
Qed.

Lemma recent_queries_length : forall history, (List.length (recent_queries history) <= 5)%nat.
Proof.
  intros h; unfold recent_queries; rewrite length_map, length_rev, length_skipn; lia.
Qed.

(** After a completed run for a query, the sidebar lists that query
    first, followed by the four most recent queries listed before; never
    more than five. *)
Theorem main_run_recent_queries : forall search q history p history',
  String.eqb q "" = false ->
  main_run search (Some q) history = Some (p, history') ->
  recent_queries history' = q :: firstn 4 (recent_queries history) /\
  (List.length (recent_queries history') <= 5)%nat.
Proof.
  intros search q h p h' Hq H; unfold main_run in H; rewrite Hq in H.
  destruct (app_search_cases (search q)) as [results|e]; [|discriminate].
  destruct (forallb render_case_ok _); [|discriminate].
  injection H as _ <-.
  split; [apply recent_queries_snoc | apply recent_queries_length].
Qed.

Lemma main_run_recent_queries_witness :
  let h := [("a", []); ("b", []); ("c", []); ("d", []); ("e", [])] in
  String.eqb "f" "" = false /\
  main_run (fun _ => Ok []) (Some "f") h =
    Some ({| error_shown := false; sample_notice := true; cards := SAMPLE_CASES |},
          (h ++ [("f", [])])%list) /\
  recent_queries (h ++ [("f", [])])%list = "f" :: firstn 4 (recent_queries h) /\
  (List.length (recent_queries (h ++ [("f", [])])%list) <= 5)%nat.
Proof.
  intros h.
  assert (Hm : main_run (fun _ => Ok []) (Some "f") h =
                 Some ({| error_shown := false; sample_notice := true; cards := SAMPLE_CASES |},
                       (h ++ [("f", [])])%list))
    by (vm_compute; reflexivity).
  split; [reflexivity|]; split; [exact Hm|].
  exact (main_run_recent_queries (fun _ => Ok []) "f" h _ _ eq_refl Hm).
Defined.

(** A failed regex fallback query, after a full-text query that returned
    fewer than [limit] records, aborts the run of [main]: the
    [PyMongoError] escapes [search_cases] unwrapped and [_search_cases]
    does not catch it, so neither the sample cases nor a history entry
    are produced. *)
Theorem main_run_fallback_error_aborts :
  forall model_loads encode text_find regex_find repo q history cursor e,
  String.eqb q "" = false ->
  text_find q (limit repo) = FindOk cursor ->
  (Z.of_nat (List.length cursor) < limit repo)%Z ->
  regex_find q (limit repo) = FindErr e ->
  main_run (fun q' => snd (search_cases model_loads encode None text_find regex_find repo q' []))
    (Some q) history = None.
Proof.
  intros ml enc tf rf repo q h cursor e Hq Ht Hl Hr.
  unfold main_run; rewrite Hq; cbv beta.
  rewrite (search_cases_primary_ok ml enc tf rf repo q [] cursor Hq Ht); cbv zeta.
  rewrite normalise_cursor_length.
  apply Z.ltb_lt in Hl; rewrite Hl, Hr; reflexivity.
Qed.

Lemma main_run_fallback_error_aborts_witness :
  String.eqb "q" "" = false /\
  store_ok [case_1] "q" (limit repo_fresh) = FindOk [case_1] /\
  (Z.of_nat (List.length [case_1]) < limit repo_fresh)%Z /\
  store_err NetworkTimeout "q" (limit repo_fresh) = FindErr NetworkTimeout /\
  main_run (fun q' => snd (search_cases true enc_len None (store_ok [case_1])
                             (store_err NetworkTimeout) repo_fresh q' []))
    (Some "q") [("earlier", [])] = None.
Proof.
  assert (Hl : (Z.of_nat (List.length [case_1]) < limit repo_fresh)%Z) by (simpl; lia).
  split; [reflexivity|]; split; [reflexivity|]; split; [exact Hl|]; split; [reflexivity|].
  exact (main_run_fallback_error_aborts true enc_len (store_ok [case_1]) (store_err NetworkTimeout)
           repo_fresh "q" [("earlier", [])] [case_1] NetworkTimeout eq_refl eq_refl Hl eq_refl).
Defined.
